(** * VerticalWobblingDemo: the waving-flag background of [main.cpp]

    A shallow embedding of [flags_bg] (its displacement function, the
    transfer of an image into tile memory, and the per-frame update that
    re-derives one frame-buffer slot from the other) together with the
    properties of the design document that concern it.

    Conventions.
    - A C++ [int] is a [Z] kept in the 32-bit signed range by [wrap32]; the
      arithmetic on values that can grow (the frame counter, the arguments of
      [_displacement]) goes through [int_add], [int_sub] and [int_mul].
    - Tile memory is a map from byte offsets, counted from
      [bg_tiles.vram()->data()], to byte values.  A [bn::tile*] moves in steps
      of 32 bytes and a [uint64_t*] in steps of 8 bytes.
    - [bn::lut_sin] and [bn::fixed::round_integer] belong to the Butano
      library and are not part of the program: they are Section variables,
      and the facts a proof needs about them are stated where it needs them. *)

From Stdlib Require Import ZArith List Bool Lia.
Import ListNotations.

Local Open Scope Z_scope.

(** * Part I: the program *)

(** ** Machine integers *)

Module Int.

Definition modulus : Z := 2 ^ 32.
Definition half_modulus : Z := 2 ^ 31.
Definition max_signed : Z := half_modulus - 1.
Definition min_signed : Z := - half_modulus.

(** The value of a C++ [int] after two's-complement wrap-around. *)
Definition wrap32 (z : Z) : Z := (z + half_modulus) mod modulus - half_modulus.

Definition int_add (a b : Z) : Z := wrap32 (a + b).
Definition int_sub (a b : Z) : Z := wrap32 (a - b).
Definition int_mul (a b : Z) : Z := wrap32 (a * b).

End Int.

Import Int.

(** ** [namespace data] *)

Module data.

Definition flag_width_pixels : Z := 192.
Definition flag_height_pixels : Z := 128.
Definition flag_width_tiles : Z := flag_width_pixels / 8.
Definition flag_height_tiles : Z := flag_height_pixels / 8.

Definition flag_offset_x : Z := (32 - flag_width_tiles) / 2.
Definition flag_offset_y : Z := (32 - flag_height_tiles) / 2.

Definition flag_tiles_needed : Z := flag_width_tiles * (flag_height_tiles + 2).

Definition wave_vertical_amplitude : Z := 4.
Definition wave_horizontal_period : Z := 128.
Definition wave_horizontal_multiplier : Z := 2048 / wave_horizontal_period.

End data.

(** ** Fixed-point values of the library

    A [bn::fixed] is its raw 32-bit value with 12 fractional bits. *)

Definition fixed_precision : Z := 12.
Definition fixed_scale : Z := 2 ^ fixed_precision.
Definition fixed_half_scale : Z := fixed_scale / 2.

(** [int * bn::fixed]: the raw value is multiplied in 32-bit arithmetic. *)
Definition int_times_fixed (n raw : Z) : Z := int_mul n raw.

(** ** Tile memory and pointers *)

(** Byte offset from [vram()->data()] to byte value. *)
Definition tile_memory : Type := Z -> Z.

(** [sizeof(bn::tile)]: one 4bpp tile, eight 32-bit words. *)
Definition sizeof_tile : Z := 32.
Definition sizeof_uint32 : Z := 4.
Definition sizeof_uint64 : Z := 8.

(** [p + n] on a [bn::tile*] and on a [uint64_t*]. *)
Definition tile_ptr_add (p n : Z) : Z := p + sizeof_tile * n.
Definition u64_ptr_add (p n : Z) : Z := p + sizeof_uint64 * n.

Definition tiles_base_ptr : Z := 0.

(** [bn::memory::copy(source, elements_count, destination)] on tiles: the
    [elements_count] tiles that start at [source] are stored from
    [destination] on.  The bytes are read from the memory as it is when the
    copy starts, which is what a copy between two ranges that do not overlap
    does ([update_copy_ranges_disjoint] shows that they never do here). *)
Definition memory_copy (vram : tile_memory) (source elements_count destination : Z)
  : tile_memory :=
  fun a =>
    if (destination <=? a) && (a <? destination + sizeof_tile * elements_count)
    then vram (source + (a - destination))
    else vram a.

(** Modelled from the spec: [arm::copy_vertical_tile_strip_8bpp], declared in
    main.cpp and implemented in an assembly file that is not part of the
    sources at hand.  It gathers [num_tiles] 8bpp tiles of one column of a
    row-major, 32-cells-wide map into contiguous memory: tile [i] of the strip
    is the tile whose index is in map cell [32 * i], every 8bpp tile takes the
    storage of two [bn::tile] (64 bytes), and exactly [num_tiles] tiles are
    written from [dest] on. *)
Definition copy_vertical_tile_strip_8bpp (vram : tile_memory) (dest : Z)
    (src : Z -> Z) (map_cells : Z -> Z) (num_tiles : Z) : tile_memory :=
  fun a =>
    if (dest <=? a) && (a <? dest + 2 * sizeof_tile * num_tiles)
    then let i := (a - dest) / (2 * sizeof_tile) in
         let o := (a - dest) mod (2 * sizeof_tile) in
         src (2 * sizeof_tile * map_cells (32 * i) + o)
    else vram a.

(** [for(int x = 0; x < n; x++) body], threading the state. *)
Definition for_loop {S : Type} (n : nat) (body : Z -> S -> S) (s : S) : S :=
  fold_left (fun acc i => body (Z.of_nat i) acc) (seq 0 n) s.

(** ** Image assets and the background object *)

(** A [bn::regular_bg_item]: tile bytes, map cells and palette colours. *)
Record regular_bg_item : Type := {
  tiles_ref : Z -> Z;
  cells_ptr : Z -> Z;
  palette_item : list Z
}.

(** What [flags_bg] uses of its [bn::regular_bg_ptr]: the tile memory and the
    colours of the palette. *)
Record regular_bg : Type := {
  tiles_vram : tile_memory;
  palette_colors : list Z
}.

Record flags_bg : Type := {
  _bg_item : regular_bg_item;
  _bg : regular_bg;
  _current_frame : Z
}.

(** ** Layout of the two frame-buffer slots

    The vocabulary of the properties: slot [s] starts one 8bpp tile after the
    base (tile 0 is the blank tile) and holds 24 column strips of 18 tiles of
    8 rows of 8 bytes. *)

Definition rows_per_strip : Z := 8 * (data.flag_height_tiles + 2).
Definition strip_bytes : Z := sizeof_uint64 * rows_per_strip.
Definition slot_bytes : Z := 2 * sizeof_tile * data.flag_tiles_needed.

Definition slot_base (s : Z) : Z :=
  tile_ptr_add tiles_base_ptr (2 * (data.flag_tiles_needed * s + 1)).

Definition column_base (s x : Z) : Z :=
  tile_ptr_add (slot_base s) (2 * (data.flag_height_tiles + 2) * x).

(** Address of byte [b] of row [r] of the strip of column [x] in slot [s]. *)
Definition row_byte (s x r b : Z) : Z := u64_ptr_add (column_base s x) r + b.

Definition in_slot (s a : Z) : Prop := slot_base s <= a < slot_base s + slot_bytes.

Definition src_slot (current_frame : Z) : Z := Z.land current_frame 1.
Definition dst_slot (current_frame : Z) : Z := Z.lxor (Z.land current_frame 1) 1.

(** Byte [k] of the 16-tile strip of column [x] of an image, in the order in
    which the strip converter stores it. *)
Definition image_strip_byte (item : regular_bg_item) (x k : Z) : Z :=
  tiles_ref item
    (2 * sizeof_tile
       * cells_ptr item (32 * data.flag_offset_y + data.flag_offset_x + x
                         + 32 * (k / (2 * sizeof_tile)))
     + k mod (2 * sizeof_tile)).

Definition image_strip_bytes : Z := 2 * sizeof_tile * data.flag_height_tiles.

(** The tiles that [create] allocates, in [bn::tile] units, and their size. *)
Definition allocated_tiles : Z := 2 * (2 * data.flag_tiles_needed + 1).
Definition allocated_bytes : Z := sizeof_tile * allocated_tiles.

(** The angle that [_displacement] hands to the sine table. *)
Definition wave_angle (x t : Z) : Z :=
  (data.wave_horizontal_multiplier * (x - t)) mod 2048.

Section Flags.

(** [bn::lut_sin] (raw value of the result) and [bn::fixed::round_integer]
    (on the raw value). *)
Variable lut_sin : Z -> Z.
Variable round_integer : Z -> Z.

(** [flags_bg::_displacement] *)
Definition _displacement (x t : Z) : Z :=
  let a := int_mul data.wave_horizontal_multiplier (int_sub x t) in
  round_integer (int_times_fixed data.wave_vertical_amplitude (lut_sin (Z.land a 2047))).

(** The constants of [update]. *)
Definition tiles_to_copy : Z := data.flag_height_tiles + 2.
Definition words_to_copy : Z := 2 * sizeof_tile * tiles_to_copy / sizeof_uint32.
Definition real_tiles_to_copy : Z := (words_to_copy * sizeof_uint32) / sizeof_tile.

(** The row shift of column [x] in the update of frame [current_frame]. *)
Definition d_disp (current_frame x : Z) : Z :=
  int_sub (_displacement (8 * x) (int_add current_frame 1))
          (_displacement (8 * x) current_frame).

(** One iteration of the loop of [flags_bg::update]. *)
Definition update_column (current_frame : Z) (x : Z) (vram : tile_memory)
  : tile_memory :=
  let src := Z.land current_frame 1 in
  let dst := Z.lxor src 1 in
  let tiles_src_ptr :=
    tile_ptr_add tiles_base_ptr (2 * (data.flag_tiles_needed * src + 1)) in
  let tiles_dst_ptr :=
    tile_ptr_add tiles_base_ptr (2 * (data.flag_tiles_needed * dst + 1)) in
  let x_disp := 2 * (data.flag_height_tiles + 2) * x in
  let col_src_ptr := tile_ptr_add tiles_src_ptr x_disp in
  let col_dst_ptr := tile_ptr_add tiles_dst_ptr x_disp in
  let line_dst_ptr := u64_ptr_add col_dst_ptr (d_disp current_frame x) in
  memory_copy vram col_src_ptr real_tiles_to_copy line_dst_ptr.

(** The tile memory after the whole loop of [update]. *)
Definition update_tiles (current_frame : Z) (vram : tile_memory) : tile_memory :=
  for_loop (Z.to_nat data.flag_width_tiles) (update_column current_frame) vram.

(** [flags_bg::update] *)
Definition update (self : flags_bg) : flags_bg :=
  let current_frame := _current_frame self in
  {| _bg_item := _bg_item self;
     _bg := {| tiles_vram := update_tiles current_frame (tiles_vram (_bg self));
               palette_colors := palette_colors (_bg self) |};
     _current_frame := int_add (_current_frame self) 1 |}.

(** One iteration of the loop of [flags_bg::_transfer]. *)
Definition _transfer_column (flag_item : regular_bg_item) (current_frame : Z)
    (x : Z) (vram : tile_memory) : tile_memory :=
  let dst := Z.land current_frame 1 in
  let dest_tiles_ptr :=
    tile_ptr_add tiles_base_ptr (2 * (dst * data.flag_tiles_needed + 1)) in
  let tile_ptr := tile_ptr_add dest_tiles_ptr (2 * (data.flag_height_tiles + 2) * x) in
  let disp := _displacement (8 * x) current_frame in
  let line_ptr := u64_ptr_add (tile_ptr_add tile_ptr 2) disp in
  let map_ptr := fun k =>
    cells_ptr flag_item (32 * data.flag_offset_y + data.flag_offset_x + x + k) in
  copy_vertical_tile_strip_8bpp vram line_ptr (tiles_ref flag_item) map_ptr
                                data.flag_height_tiles.

(** [flags_bg::_transfer] *)
Definition _transfer (self : flags_bg) : flags_bg :=
  let flag_item := _bg_item self in
  {| _bg_item := _bg_item self;
     _bg := {| tiles_vram :=
                 for_loop (Z.to_nat data.flag_width_tiles)
                          (_transfer_column flag_item (_current_frame self))
                          (tiles_vram (_bg self));
               palette_colors := palette_item flag_item |};
     _current_frame := _current_frame self |}.

(** [flags_bg::set_bg_item] *)
Definition set_bg_item (bg_item : regular_bg_item) (self : flags_bg) : flags_bg :=
  _transfer {| _bg_item := bg_item;
               _bg := _bg self;
               _current_frame := _current_frame self |}.

(** [flags_bg::bg_item] *)
Definition bg_item (self : flags_bg) : regular_bg_item := _bg_item self.

(** [flags_bg::create] and the private constructor it calls.  [vram] is what
    the freshly allocated tiles hold (the allocation does not clear them);
    the palette is created from the item; the map that [create] fills refers
    to the tiles by index and is not touched afterwards, so it is left out. *)
Definition create (bg_item : regular_bg_item) (vram : tile_memory) : flags_bg :=
  _transfer {| _bg_item := bg_item;
               _bg := {| tiles_vram := vram;
                         palette_colors := palette_item bg_item |};
               _current_frame := 0 |}.

(** The calls the main loop makes on the object. *)
Inductive call : Type :=
| CallUpdate : call
| CallSetBgItem : regular_bg_item -> call.

Definition is_update (c : call) : bool :=
  match c with CallUpdate => true | CallSetBgItem _ => false end.

Definition perform (self : flags_bg) (c : call) : flags_bg :=
  match c with
  | CallUpdate => update self
  | CallSetBgItem item => set_bg_item item self
  end.

Definition run (self : flags_bg) (calls : list call) : flags_bg :=
  fold_left perform calls self.

(** ** Vocabulary of the properties *)

(** Where the copy of column [x] starts in the update of frame [t], and the
    addresses it stores to. *)
Definition update_line (t x : Z) : Z :=
  u64_ptr_add (column_base (dst_slot t) x) (d_disp t x).

Definition written (t x a : Z) : Prop :=
  update_line t x <= a < update_line t x + strip_bytes.

(** The strip of column [x] in the destination slot of [after] is the strip
    of the source slot of [before] moved down by [d_disp t x] rows, for the
    rows [lo <= r < hi] that stay within [lo, hi). *)
Definition shifted_strip (lo hi : Z) (before after : tile_memory) (t x : Z) : Prop :=
  forall r b,
    lo <= r < hi -> lo <= r + d_disp t x < hi -> 0 <= b < sizeof_uint64 ->
    after (row_byte (dst_slot t) x (r + d_disp t x) b)
    = before (row_byte (src_slot t) x r b).

(** Where [_transfer] puts the strip of column [x] in slot [s] at frame [t]:
    one 8bpp tile below the top of the column strip, moved by the
    displacement in rows. *)
Definition transfer_line (s t x : Z) : Z :=
  u64_ptr_add (tile_ptr_add (column_base s x) 2) (_displacement (8 * x) t).

(** Slot [s] holds the strip of column [x] of [item] at the place of frame [t]. *)
Definition strip_loaded (vram : tile_memory) (s t : Z) (item : regular_bg_item)
    (x : Z) : Prop :=
  forall k, 0 <= k < image_strip_bytes ->
    vram (transfer_line s t x + k) = image_strip_byte item x k.

(** No byte of the source slot of frame [t] differs between [before] and
    [after]. *)
Definition source_slot_untouched (before after : tile_memory) (t : Z) : Prop :=
  forall a, in_slot (src_slot t) a -> after a = before a.

(** The two rows on either side of the border between slot 0 and slot 1. *)
Definition at_slot_border (a : Z) : Prop :=
  slot_base 1 - sizeof_uint64 <= a < slot_base 1 + sizeof_uint64.

Definition count_updates (calls : list call) : nat :=
  length (filter is_update calls).

End Flags.

(** The 2048 angles of the sine table. *)
Definition lut_angles : list Z := map Z.of_nat (seq 0 2048).

(** Facts about a sine table [lut] (raw fixed-point values) that the proofs
    rely on, as decidable checks over the whole table.
    - [table_bounded]: no entry exceeds 1.0 in absolute value;
    - [table_smooth]: two entries one frame apart (16 angle units) differ by
      less than a quarter, so that four times their difference is below 1.0. *)
Definition table_bounded (lut : Z -> Z) : bool :=
  forallb (fun a => Z.abs (lut a) <=? fixed_scale) lut_angles.

Definition table_smooth (lut : Z -> Z) : bool :=
  forallb (fun a => Z.abs (lut a - lut ((a - 16) mod 2048)) <? fixed_scale / 4)
          lut_angles.

(** Two places where any table close to the sine agrees with it after
    rounding: at the angles 2016 and 2000 four times the sine falls from
    about -0.39 to about -0.59, through -0.5; at 1888 and 1872 it stays close
    to -2 (about -1.89 and -2.06). *)
Definition table_falls_through_half (lut : Z -> Z) : Prop :=
  (- 512 < lut 2016 < 512) /\ (- 1536 < lut 2000 < - 512).

Definition table_stays_near_two (lut : Z -> Z) : Prop :=
  (- 2560 < lut 1888 < - 1536) /\ (- 2560 < lut 1872 < - 1536).

(** [round] returns an integer nearest to the fixed-point value [raw]; how a
    tie is broken is left open. *)
Definition rounds_to_nearest (round : Z -> Z) : Prop :=
  forall raw, Z.abs (fixed_scale * round raw - raw) <= fixed_half_scale.

(** ** A reference instance of the library functions

    The sine table rounded from the Taylor series of the sine, evaluated in
    fixed-point arithmetic with 30 decimal digits, and rounding by adding one
    half and shifting.  They instantiate the Section variables wherever a
    statement is evaluated on concrete data. *)

Module Ref.

Definition one : Z := 10 ^ 30.
Definition pi : Z := 3141592653589793238462643383280.

(** [term + next terms] of the series; [term] is the term of degree [k]. *)
Fixpoint sin_series (fuel : nat) (k term theta2 : Z) : Z :=
  match fuel with
  | O => 0
  | S fuel' =>
      term + sin_series fuel' (k + 2)
                        (- (term * theta2 / one) / ((k + 1) * (k + 2))) theta2
  end.

(** Sine of the angle [a] in [0, 512] (a quarter turn), scaled by [one]. *)
Definition quarter_sin (a : Z) : Z :=
  let theta := pi * a / 1024 in
  sin_series 14 1 theta (theta * theta / one).

Definition to_raw (s : Z) : Z := (fixed_scale * s + one / 2) / one.

(** The first quarter of the table, angles 0 to 512, evaluated once. *)
Definition quarter_table : list Z :=
  Eval vm_compute in map (fun n => to_raw (quarter_sin (Z.of_nat n))) (seq 0 513).

Definition quarter (a : Z) : Z := nth (Z.to_nat a) quarter_table 0.

Definition lut_sin (lut_angle : Z) : Z :=
  let a := lut_angle mod 2048 in
  if a <=? 512 then quarter a
  else if a <=? 1024 then quarter (1024 - a)
  else if a <=? 1536 then - quarter (a - 1024)
  else - quarter (2048 - a).

Definition round_integer (raw : Z) : Z :=
  Z.shiftr (raw + fixed_half_scale) fixed_precision.

(** Two images of distinct content and a tile memory whose bytes differ from
    place to place, for the concrete runs. *)
Definition flag_a : regular_bg_item :=
  {| tiles_ref := fun a => 1 + a mod 199;
     cells_ptr := fun k => k mod 384;
     palette_item := [0; 31; 992] |}.

Definition flag_b : regular_bg_item :=
  {| tiles_ref := fun _ => 255;
     cells_ptr := fun k => k mod 384;
     palette_item := [0; 31744; 32767] |}.

Definition stale_vram : tile_memory := fun a => a mod 251.

Definition displacement : Z -> Z -> Z := _displacement lut_sin round_integer.
Definition start : flags_bg := create lut_sin round_integer flag_a stale_vram.
Definition after (n : nat) : flags_bg :=
  Nat.iter n (update lut_sin round_integer) start.

End Ref.

(** ** The map that [create] fills

    [create] allocates a map of 32 by 32 cells, blanks it and stores, for
    every tile of every column strip, the number of the tile plus one.  A map
    is its cells by index; [vram] is what the cells hold before. *)

Definition map_memory : Type := Z -> Z.

Definition map_cells_count : Z := 32 * 32.

(** [bn::fill(vram.begin(), vram.end(), bn::regular_bg_map_cell())] *)
Definition fill_blank (vram : map_memory) : map_memory :=
  fun k => if (0 <=? k) && (k <? map_cells_count) then 0 else vram k.

(** [vram[i] = v] *)
Definition map_store (vram : map_memory) (i v : Z) : map_memory :=
  fun k => if k =? i then v else vram k.

(** A [bn::regular_bg_map_cell] is a 16-bit value. *)
Definition regular_bg_map_cell (v : Z) : Z := v mod 2 ^ 16.

(** The body of the inner loop of [create]. *)
Definition create_map_cell (x y : Z) (vram : map_memory) : map_memory :=
  let tile_x := data.flag_offset_x + x in
  let tile_y := data.flag_offset_y + y - 1 in
  let tile_index := (data.flag_height_tiles + 2) * x + y in
  map_store vram (32 * tile_y + tile_x) (regular_bg_map_cell (tile_index + 1)).

(** The map of [create] once both loops are done. *)
Definition create_map (vram : map_memory) : map_memory :=
  for_loop (Z.to_nat data.flag_width_tiles)
           (fun x => for_loop (Z.to_nat (data.flag_height_tiles + 2))
                              (fun y => create_map_cell x y))
           (fill_blank vram).

(** The image that is current after a sequence of calls. *)
Definition last_item (calls : list call) (item : regular_bg_item) : regular_bg_item :=
  fold_left (fun i c => match c with CallUpdate => i | CallSetBgItem j => j end)
            calls item.

(** ** [main] *)

Section MainLoop.

Variable lut_sin : Z -> Z.
Variable round_integer : Z -> Z.

(** [operator==] on [bn::regular_bg_item], and the two flags. *)
Variable item_eqb : regular_bg_item -> regular_bg_item -> bool.
Variable br_flag : regular_bg_item.
Variable us_flag : regular_bg_item.

(** One turn of the [while(true)] loop; [a_pressed] is what
    [bn::keypad::a_pressed()] answers in that turn. *)
Definition main_iteration (a_pressed : bool) (flags : flags_bg) : flags_bg :=
  let flags :=
    if a_pressed
    then if item_eqb (bg_item flags) br_flag
         then set_bg_item lut_sin round_integer us_flag flags
         else set_bg_item lut_sin round_integer br_flag flags
    else flags in
  update lut_sin round_integer flags.

(** [main] up to the end of the turn that consumes the last of [keys]. *)
Definition main (vram : tile_memory) (keys : list bool) : flags_bg :=
  fold_left (fun flags a_pressed => main_iteration a_pressed flags) keys
            (create lut_sin round_integer br_flag vram).

(** The calls that [main] makes on the object, given the flag shown. *)
Fixpoint main_calls (shows_br : bool) (keys : list bool) : list call :=
  match keys with
  | [] => []
  | false :: keys' => CallUpdate :: main_calls shows_br keys'
  | true :: keys' =>
      CallSetBgItem (if shows_br then us_flag else br_flag)
      :: CallUpdate :: main_calls (negb shows_br) keys'
  end.

Definition presses (keys : list bool) : nat := length (filter (fun k => k) keys).

End MainLoop.

(** ** A tile memory with nothing but the image in it *)

Section Clean.

Variable lut_sin : Z -> Z.
Variable round_integer : Z -> Z.

(** The rows of the strip of column [x] that hold the image at frame [t]. *)
Definition image_rows (t x r : Z) : Prop :=
  8 + _displacement lut_sin round_integer (8 * x) t <= r
  < 8 + 8 * data.flag_height_tiles + _displacement lut_sin round_integer (8 * x) t.

(** At frame [t] the slot of the frame's parity holds the strips of [item]
    in their places and zero bytes in all other rows; the first and the last
    row of every strip of the other slot are zero; so is tile 0. *)
Definition clean_image (item : regular_bg_item) (t : Z) (m : tile_memory) : Prop :=
  forall x, 0 <= x < data.flag_width_tiles ->
    strip_loaded lut_sin round_integer m (src_slot t) t item x.

Definition clean_around (t : Z) (m : tile_memory) : Prop :=
  forall x r b,
    0 <= x < data.flag_width_tiles -> 0 <= r < rows_per_strip ->
    0 <= b < sizeof_uint64 -> ~ image_rows t x r ->
    m (row_byte (src_slot t) x r b) = 0.

Definition clean_edges (t : Z) (m : tile_memory) : Prop :=
  forall x b,
    0 <= x < data.flag_width_tiles -> 0 <= b < sizeof_uint64 ->
    m (row_byte (dst_slot t) x 0 b) = 0
    /\ m (row_byte (dst_slot t) x (rows_per_strip - 1) b) = 0.

Definition clean_tile0 (m : tile_memory) : Prop :=
  forall a, 0 <= a < slot_base 0 -> m a = 0.

Definition clean (item : regular_bg_item) (t : Z) (m : tile_memory) : Prop :=
  clean_image item t m /\ clean_around t m /\ clean_edges t m /\ clean_tile0 m.

Definition clean_state (self : flags_bg) : Prop :=
  clean (_bg_item self) (_current_frame self) (tiles_vram (_bg self)).

(** The strips of the current image are in the slot of the frame's parity,
    each at its place of the current frame. *)
Definition image_in_place (self : flags_bg) : Prop :=
  forall x, 0 <= x < data.flag_width_tiles ->
    strip_loaded lut_sin round_integer (tiles_vram (_bg self))
                 (src_slot (_current_frame self)) (_current_frame self)
                 (_bg_item self) x.

(** The allocated tiles hold zero bytes. *)
Definition blank_tiles (m : tile_memory) : Prop :=
  forall a, 0 <= a < allocated_bytes -> m a = 0.

End Clean.

Module RefRun.

(** The reference run on tiles that start blank, and a comparison of images
    by their palettes for [main]. *)
Definition blank_vram : tile_memory := fun _ => 0.

Definition item_eqb (i j : regular_bg_item) : bool :=
  if list_eq_dec Z.eq_dec (palette_item i) (palette_item j) then true else false.

Definition some_calls : list call :=
  [CallUpdate; CallUpdate; CallSetBgItem Ref.flag_b; CallUpdate;
   CallSetBgItem Ref.flag_a; CallSetBgItem Ref.flag_b; CallUpdate; CallUpdate].

Definition some_keys : list bool :=
  [false; true; false; false; true; true; false].

Definition stale_run : flags_bg :=
  run Ref.lut_sin Ref.round_integer
      (create Ref.lut_sin Ref.round_integer Ref.flag_a Ref.stale_vram) some_calls.

Definition blank_run : flags_bg :=
  run Ref.lut_sin Ref.round_integer
      (create Ref.lut_sin Ref.round_integer Ref.flag_a blank_vram) some_calls.

Definition main_run : flags_bg :=
  main Ref.lut_sin Ref.round_integer item_eqb Ref.flag_a Ref.flag_b
       Ref.stale_vram some_keys.

End RefRun.

(** * Part II: properties *)

(** ** Machine integers *)

Ltac int_consts :=
  cbv [int_add int_sub int_mul wrap32 modulus half_modulus max_signed min_signed] in *;
  change (2 ^ 32) with 4294967296 in *;
  change (2 ^ 31) with 2147483648 in *.

Lemma wrap32_range (z : Z) : min_signed <= wrap32 z <= max_signed.
Proof.
  pose proof (Z.mod_pos_bound (z + half_modulus) modulus eq_refl) as H.
  int_consts. lia.
Qed.

Lemma wrap32_small (z : Z) : min_signed <= z <= max_signed -> wrap32 z = z.
Proof.
  intros H. int_consts. rewrite Z.mod_small; lia.
Qed.

(** Wrapping only ever adds a multiple of [2^32] ... *)
Lemma wrap32_congr (z : Z) : exists k, wrap32 z = z + modulus * k.
Proof.
  exists (- ((z + half_modulus) / modulus)). int_consts.
  rewrite Z.mod_eq by lia. lia.
Qed.

(** ... so it is invisible modulo 2048, the period of the sine table. *)
Lemma wrap32_mod_2048 (z : Z) : wrap32 z mod 2048 = z mod 2048.
Proof.
  destruct (wrap32_congr z) as [k ->]. unfold modulus.
  replace (z + 2 ^ 32 * k) with (z + (2097152 * k) * 2048) by lia.
  apply Z.mod_add. lia.
Qed.

Lemma land_2047 (a : Z) : Z.land a 2047 = a mod 2048.
Proof. change 2047 with (Z.ones 11). rewrite Z.land_ones by lia. reflexivity. Qed.

Lemma land_1_cases (t : Z) : Z.land t 1 = 0 \/ Z.land t 1 = 1.
Proof.
  assert (E : Z.land t 1 = t mod 2)
    by (change 1 with (Z.ones 1); rewrite Z.land_ones by lia; reflexivity).
  rewrite E. pose proof (Z.mod_pos_bound t 2). lia.
Qed.

(** ** The sine table *)

Lemma lut_angles_spec (a : Z) : In a lut_angles <-> 0 <= a < 2048.
Proof.
  unfold lut_angles. rewrite in_map_iff. split.
  - intros [n [<- Hn]]. apply in_seq in Hn. lia.
  - intros H. exists (Z.to_nat a). split; [lia|]. apply in_seq. lia.
Qed.

Lemma table_bounded_spec (lut : Z -> Z) :
  table_bounded lut = true ->
  forall a, 0 <= a < 2048 -> - 4096 <= lut a <= 4096.
Proof.
  unfold table_bounded. rewrite forallb_forall. intros H a Ha.
  specialize (H a (proj2 (lut_angles_spec a) Ha)). apply Z.leb_le in H.
  change fixed_scale with 4096 in H. lia.
Qed.

Lemma table_smooth_spec (lut : Z -> Z) :
  table_smooth lut = true ->
  forall a, 0 <= a < 2048 -> Z.abs (lut a - lut ((a - 16) mod 2048)) < 1024.
Proof.
  unfold table_smooth. rewrite forallb_forall. intros H a Ha.
  specialize (H a (proj2 (lut_angles_spec a) Ha)). apply Z.ltb_lt in H.
  exact H.
Qed.

Lemma rounds_to_nearest_spec (round : Z -> Z) :
  rounds_to_nearest round -> forall raw, Z.abs (4096 * round raw - raw) <= 2048.
Proof. intros H raw. exact (H raw). Qed.

Lemma wave_angle_range (x t : Z) : 0 <= wave_angle x t < 2048.
Proof. unfold wave_angle. apply Z.mod_pos_bound. lia. Qed.

(** The angle depends on [x - t] modulo 128 only: it survives the wrap-around
    of either argument and of the difference. *)
Lemma wave_angle_wrap_t (x t : Z) : wave_angle x (wrap32 t) = wave_angle x t.
Proof.
  unfold wave_angle. destruct (wrap32_congr t) as [k ->].
  change data.wave_horizontal_multiplier with 16. unfold modulus.
  replace (16 * (x - (t + 2 ^ 32 * k)))
    with (16 * (x - t) + (- 33554432 * k) * 2048) by lia.
  apply Z.mod_add. lia.
Qed.

Lemma wave_angle_succ (x t : Z) :
  wave_angle x (t + 1) = (wave_angle x t - 16) mod 2048.
Proof.
  unfold wave_angle. change data.wave_horizontal_multiplier with 16.
  rewrite Zminus_mod_idemp_l. f_equal. lia.
Qed.

Lemma wave_angle_next (x t : Z) :
  wave_angle x (int_add t 1) = (wave_angle x t - 16) mod 2048.
Proof. unfold int_add. rewrite wave_angle_wrap_t. apply wave_angle_succ. Qed.

Lemma wave_angle_period (x t : Z) : wave_angle x (t + 128) = wave_angle x t.
Proof.
  unfold wave_angle. change data.wave_horizontal_multiplier with 16.
  replace (16 * (x - (t + 128))) with (16 * (x - t) + (- 1) * 2048) by lia.
  apply Z.mod_add. lia.
Qed.

Section FlagsFacts.

Variable lut_sin : Z -> Z.
Variable round_integer : Z -> Z.

Local Abbreviation disp := (_displacement lut_sin round_integer).
Local Abbreviation delta := (d_disp lut_sin round_integer).

(** ** The displacement *)

Lemma displacement_angle (x t : Z) :
  disp x t
  = round_integer (int_times_fixed data.wave_vertical_amplitude
                                   (lut_sin (wave_angle x t))).
Proof.
  unfold _displacement. cbv zeta. do 3 f_equal.
  rewrite land_2047. unfold int_mul, int_sub. rewrite wrap32_mod_2048.
  unfold wave_angle. destruct (wrap32_congr (x - t)) as [k ->].
  change data.wave_horizontal_multiplier with 16. unfold modulus.
  replace (16 * (x - t + 2 ^ 32 * k))
    with (16 * (x - t) + (33554432 * k) * 2048) by lia.
  apply Z.mod_add. lia.
Qed.

Lemma amplitude_product (a : Z) :
  table_bounded lut_sin = true -> 0 <= a < 2048 ->
  int_times_fixed data.wave_vertical_amplitude (lut_sin a) = 4 * lut_sin a.
Proof.
  intros Hb Ha. pose proof (table_bounded_spec _ Hb a Ha).
  unfold int_times_fixed, int_mul. change data.wave_vertical_amplitude with 4.
  apply wrap32_small. int_consts. lia.
Qed.

Lemma displacement_value (x t : Z) :
  table_bounded lut_sin = true ->
  disp x t = round_integer (4 * lut_sin (wave_angle x t)).
Proof.
  intros Hb. rewrite displacement_angle.
  rewrite amplitude_product by (auto using wave_angle_range). reflexivity.
Qed.

Lemma displacement_range (x t : Z) :
  table_bounded lut_sin = true -> rounds_to_nearest round_integer ->
  - 4 <= disp x t <= 4.
Proof.
  intros Hb Hr. rewrite displacement_value by assumption.
  pose proof (table_bounded_spec _ Hb _ (wave_angle_range x t)).
  pose proof (rounds_to_nearest_spec _ Hr (4 * lut_sin (wave_angle x t))).
  lia.
Qed.

Lemma d_disp_range (t x : Z) :
  table_bounded lut_sin = true -> table_smooth lut_sin = true ->
  rounds_to_nearest round_integer ->
  - 1 <= delta t x <= 1.
Proof.
  intros Hb Hs Hr. unfold d_disp.
  pose proof (displacement_range (8 * x) t Hb Hr) as R0.
  pose proof (displacement_range (8 * x) (int_add t 1) Hb Hr) as R1.
  unfold int_sub. rewrite wrap32_small by (int_consts; lia).
  rewrite !displacement_value in * by assumption.
  rewrite wave_angle_next in *.
  pose proof (table_smooth_spec _ Hs _ (wave_angle_range (8 * x) t)) as S.
  pose proof (rounds_to_nearest_spec _ Hr (4 * lut_sin (wave_angle (8 * x) t))).
  pose proof (rounds_to_nearest_spec _ Hr
                (4 * lut_sin ((wave_angle (8 * x) t - 16) mod 2048))).
  lia.
Qed.

(** ** Addresses *)

Lemma slot_cases (t : Z) :
  (src_slot t = 0 /\ dst_slot t = 1) \/ (src_slot t = 1 /\ dst_slot t = 0).
Proof.
  unfold src_slot, dst_slot. destruct (land_1_cases t) as [-> | ->]; auto.
Qed.

Lemma column_base_eq (s x : Z) : column_base s x = 64 + 27648 * s + 1152 * x.
Proof.
  unfold column_base, slot_base, tile_ptr_add, tiles_base_ptr, sizeof_tile.
  change data.flag_tiles_needed with 432. change data.flag_height_tiles with 16.
  lia.
Qed.

Lemma slot_base_eq (s : Z) : slot_base s = 64 + 27648 * s.
Proof.
  unfold slot_base, tile_ptr_add, tiles_base_ptr, sizeof_tile.
  change data.flag_tiles_needed with 432. lia.
Qed.

Lemma row_byte_eq (s x r b : Z) :
  row_byte s x r b = 64 + 27648 * s + 1152 * x + 8 * r + b.
Proof.
  unfold row_byte, u64_ptr_add, sizeof_uint64. rewrite column_base_eq. lia.
Qed.

Lemma update_line_eq (t x : Z) :
  update_line lut_sin round_integer t x
  = 64 + 27648 * dst_slot t + 1152 * x + 8 * delta t x.
Proof.
  unfold update_line, u64_ptr_add, sizeof_uint64. rewrite column_base_eq. lia.
Qed.

Lemma transfer_line_eq (s t x : Z) :
  transfer_line lut_sin round_integer s t x
  = 64 + 27648 * s + 1152 * x + 64 + 8 * disp (8 * x) t.
Proof.
  unfold transfer_line, u64_ptr_add, tile_ptr_add, sizeof_uint64, sizeof_tile.
  rewrite column_base_eq. lia.
Qed.

(** ** One column of [update] *)

Lemma update_column_copy (t x : Z) (vram : tile_memory) :
  update_column lut_sin round_integer t x vram
  = memory_copy vram (column_base (src_slot t) x) real_tiles_to_copy
                (update_line lut_sin round_integer t x).
Proof. reflexivity. Qed.

Lemma update_column_hit (t x a : Z) (vram : tile_memory) :
  written lut_sin round_integer t x a ->
  update_column lut_sin round_integer t x vram a
  = vram (column_base (src_slot t) x + (a - update_line lut_sin round_integer t x)).
Proof.
  unfold written. change strip_bytes with 1152. intros H.
  rewrite update_column_copy. unfold memory_copy.
  change (sizeof_tile * real_tiles_to_copy) with 1152.
  destruct (Z.leb_spec (update_line lut_sin round_integer t x) a); [|lia].
  destruct (Z.ltb_spec a (update_line lut_sin round_integer t x + 1152)); [|lia].
  reflexivity.
Qed.

Lemma update_column_miss (t x a : Z) (vram : tile_memory) :
  ~ written lut_sin round_integer t x a ->
  update_column lut_sin round_integer t x vram a = vram a.
Proof.
  unfold written. change strip_bytes with 1152. intros H.
  rewrite update_column_copy. unfold memory_copy.
  change (sizeof_tile * real_tiles_to_copy) with 1152.
  destruct (Z.leb_spec (update_line lut_sin round_integer t x) a);
    destruct (Z.ltb_spec a (update_line lut_sin round_integer t x + 1152));
    simpl; try reflexivity.
  exfalso. apply H. lia.
Qed.

(** ** The loops *)

Lemma for_loop_S {S : Type} (n : nat) (body : Z -> S -> S) (s : S) :
  for_loop (Datatypes.S n) body s = body (Z.of_nat n) (for_loop n body s).
Proof.
  unfold for_loop. rewrite seq_S, fold_left_app. reflexivity.
Qed.

(** An address that no column of the update stores to keeps its byte. *)
Lemma update_loop_frame (t a : Z) (vram : tile_memory) (n : nat) :
  (forall x, 0 <= x < Z.of_nat n -> ~ written lut_sin round_integer t x a) ->
  for_loop n (update_column lut_sin round_integer t) vram a = vram a.
Proof.
  induction n as [|n IH]; intros H.
  - reflexivity.
  - rewrite for_loop_S, update_column_miss by (apply H; lia).
    apply IH. intros x Hx. apply H. lia.
Qed.

Section BoundedShift.

(** With the rows of every column moving by at most one. *)
Variable t : Z.
Hypothesis shift_small : forall x, - 1 <= delta t x <= 1.

(** The copy of a column reads and stores in ranges that do not meet. *)
Lemma update_copy_ranges_disjoint (x a : Z) :
  0 <= x < data.flag_width_tiles ->
  written lut_sin round_integer t x a ->
  ~ (column_base (src_slot t) x <= a < column_base (src_slot t) x + strip_bytes).
Proof.
  unfold written. change strip_bytes with 1152. rewrite update_line_eq, column_base_eq.
  pose proof (shift_small x). intros _.
  destruct (slot_cases t) as [[-> ->] | [-> ->]]; lia.
Qed.

(** Every store of the update falls in the destination slot or in the row
    next to it on either side. *)
Lemma written_near_dst_slot (x a : Z) :
  0 <= x < data.flag_width_tiles ->
  written lut_sin round_integer t x a ->
  slot_base (dst_slot t) - 8 <= a < slot_base (dst_slot t) + slot_bytes + 8.
Proof.
  unfold written. change strip_bytes with 1152. change slot_bytes with 27648.
  change data.flag_width_tiles with 24.
  rewrite update_line_eq, slot_base_eq. pose proof (shift_small x). lia.
Qed.

Lemma update_tiles_frame (a : Z) (vram : tile_memory) :
  ~ (slot_base (dst_slot t) - 8 <= a < slot_base (dst_slot t) + slot_bytes + 8) ->
  update_tiles lut_sin round_integer t vram a = vram a.
Proof.
  intros H. unfold update_tiles. apply update_loop_frame.
  intros x Hx W. apply H. apply (written_near_dst_slot x); [|exact W].
  change data.flag_width_tiles with 24 in *.
  change (Z.to_nat 24) with 24%nat in Hx. lia.
Qed.

(** After the first [n] columns, the inner rows of each of them hold the
    inner rows of the source strip, moved by the column's shift. *)
Lemma update_loop_inner (vram : tile_memory) (n : nat) :
  (n <= 24)%nat ->
  forall x, 0 <= x < Z.of_nat n ->
    shifted_strip lut_sin round_integer 1 (rows_per_strip - 1) vram
      (for_loop n (update_column lut_sin round_integer t) vram) t x.
Proof.
  induction n as [|n IH]; intros Hn x Hx; [lia|].
  unfold shifted_strip. change rows_per_strip with 144.
  change sizeof_uint64 with 8. intros r b Hr Hrd Hb.
  rewrite for_loop_S.
  assert (Hcases : x = Z.of_nat n \/ x < Z.of_nat n) by lia.
  destruct Hcases as [-> | Hlt].
  - rewrite update_column_hit.
    + rewrite update_loop_frame.
      * f_equal. rewrite update_line_eq, column_base_eq, !row_byte_eq. lia.
      * intros x' Hx' W.
        apply written_near_dst_slot in W;
          [|change data.flag_width_tiles with 24; lia].
        revert W. change slot_bytes with 27648.
        rewrite update_line_eq, column_base_eq, row_byte_eq, slot_base_eq.
        destruct (slot_cases t) as [[-> ->] | [-> ->]]; lia.
    + unfold written. change strip_bytes with 1152.
      rewrite update_line_eq, row_byte_eq. lia.
  - rewrite update_column_miss.
    + apply (IH ltac:(lia) x ltac:(lia) r b); assumption.
    + unfold written. change strip_bytes with 1152.
      rewrite update_line_eq, row_byte_eq.
      pose proof (shift_small (Z.of_nat n)). lia.
Qed.

End BoundedShift.

(** ** One column of [_transfer] *)

Lemma _transfer_column_strip (item : regular_bg_item) (t x : Z) (vram : tile_memory) :
  _transfer_column lut_sin round_integer item t x vram
  = copy_vertical_tile_strip_8bpp vram
      (transfer_line lut_sin round_integer (src_slot t) t x) (tiles_ref item)
      (fun k => cells_ptr item (32 * data.flag_offset_y + data.flag_offset_x + x + k))
      data.flag_height_tiles.
Proof.
  unfold _transfer_column. cbv zeta. f_equal.
  unfold transfer_line, column_base, slot_base, src_slot, tile_ptr_add, u64_ptr_add.
  lia.
Qed.

Lemma _transfer_column_hit (item : regular_bg_item) (t x k : Z) (vram : tile_memory) :
  0 <= k < image_strip_bytes ->
  _transfer_column lut_sin round_integer item t x vram
    (transfer_line lut_sin round_integer (src_slot t) t x + k)
  = image_strip_byte item x k.
Proof.
  change image_strip_bytes with 1024. intros Hk.
  rewrite _transfer_column_strip. unfold copy_vertical_tile_strip_8bpp.
  change (2 * sizeof_tile * data.flag_height_tiles) with 1024.
  set (line := transfer_line lut_sin round_integer (src_slot t) t x).
  replace (line + k - line) with k by lia.
  destruct (Z.leb_spec line (line + k)); [|lia].
  destruct (Z.ltb_spec (line + k) (line + 1024)); [|lia].
  reflexivity.
Qed.

Lemma _transfer_column_miss (item : regular_bg_item) (t x a : Z) (vram : tile_memory) :
  ~ (transfer_line lut_sin round_integer (src_slot t) t x <= a
     < transfer_line lut_sin round_integer (src_slot t) t x + image_strip_bytes) ->
  _transfer_column lut_sin round_integer item t x vram a = vram a.
Proof.
  change image_strip_bytes with 1024. intros H.
  rewrite _transfer_column_strip. unfold copy_vertical_tile_strip_8bpp.
  change (2 * sizeof_tile * data.flag_height_tiles) with 1024.
  set (line := transfer_line lut_sin round_integer (src_slot t) t x) in *.
  destruct (Z.leb_spec line a); destruct (Z.ltb_spec a (line + 1024));
    simpl; try reflexivity.
  exfalso. apply H. lia.
Qed.

(** The strips of different columns land in different column strips of the
    slot, so the loop leaves each of them in place. *)
Lemma transfer_loop_loaded (item : regular_bg_item) (t : Z) (vram : tile_memory)
    (n : nat) :
  table_bounded lut_sin = true -> rounds_to_nearest round_integer ->
  (n <= 24)%nat ->
  forall x, 0 <= x < Z.of_nat n ->
    strip_loaded lut_sin round_integer
      (for_loop n (_transfer_column lut_sin round_integer item t) vram)
      (src_slot t) t item x.
Proof.
  intros Hb Hr. induction n as [|n IH]; intros Hn x Hx; [lia|].
  unfold strip_loaded. intros k Hk. rewrite for_loop_S.
  assert (Hcases : x = Z.of_nat n \/ x < Z.of_nat n) by lia.
  destruct Hcases as [-> | Hlt].
  - apply _transfer_column_hit. exact Hk.
  - rewrite _transfer_column_miss.
    + apply (IH ltac:(lia) x ltac:(lia) k Hk).
    + revert Hk. change image_strip_bytes with 1024. rewrite !transfer_line_eq.
      pose proof (displacement_range (8 * x) t Hb Hr).
      pose proof (displacement_range (8 * Z.of_nat n) t Hb Hr).
      lia.
Qed.

(** An address outside slot [src_slot t] is not touched by the loop. *)
Lemma transfer_loop_frame (item : regular_bg_item) (t a : Z) (vram : tile_memory)
    (n : nat) :
  table_bounded lut_sin = true -> rounds_to_nearest round_integer ->
  (n <= 24)%nat -> ~ in_slot (src_slot t) a ->
  for_loop n (_transfer_column lut_sin round_integer item t) vram a = vram a.
Proof.
  intros Hb Hr. induction n as [|n IH]; intros Hn Ha; [reflexivity|].
  rewrite for_loop_S, _transfer_column_miss; [apply IH; [lia | exact Ha]|].
  intros H. apply Ha. revert H. unfold in_slot.
  change image_strip_bytes with 1024. change slot_bytes with 27648.
  rewrite transfer_line_eq, slot_base_eq.
  pose proof (displacement_range (8 * Z.of_nat n) t Hb Hr). lia.
Qed.

(** ** The frame counter *)

Lemma update_frame (self : flags_bg) :
  _current_frame (update lut_sin round_integer self)
  = int_add (_current_frame self) 1.
Proof. reflexivity. Qed.

Lemma set_bg_item_frame (item : regular_bg_item) (self : flags_bg) :
  _current_frame (set_bg_item lut_sin round_integer item self) = _current_frame self.
Proof. reflexivity. Qed.

(** Only the [update] calls of a run move the counter. *)
Lemma run_frame (calls : list call) :
  forall self,
    _current_frame (run lut_sin round_integer self calls)
    = Nat.iter (count_updates calls) (fun f => int_add f 1) (_current_frame self).
Proof.
  unfold run, count_updates.
  induction calls as [|c calls IH]; intros self; [reflexivity|].
  cbn [fold_left]. rewrite IH. destruct c; cbn [perform filter is_update length].
  - rewrite update_frame, Nat.iter_succ_r. reflexivity.
  - rewrite set_bg_item_frame. reflexivity.
Qed.

Lemma count_up (n : nat) :
  Z.of_nat n <= max_signed -> Nat.iter n (fun f => int_add f 1) 0 = Z.of_nat n.
Proof.
  induction n as [|n IH]; intros Hn; [reflexivity|].
  rewrite Nat.iter_succ, IH by lia. unfold int_add.
  rewrite wrap32_small by (int_consts; lia). lia.
Qed.

Lemma count_updates_repeat (n : nat) : count_updates (repeat CallUpdate n) = n.
Proof.
  unfold count_updates. induction n as [|n IH]; [reflexivity|].
  cbn [repeat filter is_update length]. rewrite IH. reflexivity.
Qed.

Lemma count_updates_filter (calls : list call) :
  count_updates (filter is_update calls) = count_updates calls.
Proof.
  unfold count_updates. induction calls as [|c calls IH]; [reflexivity|].
  destruct c; cbn [filter is_update length]; rewrite IH; reflexivity.
Qed.

Lemma displacement_wrap_t (x t : Z) : disp x (wrap32 t) = disp x t.
Proof. rewrite !displacement_angle, wave_angle_wrap_t. reflexivity. Qed.

Lemma d_disp_value (t x : Z) :
  table_bounded lut_sin = true -> rounds_to_nearest round_integer ->
  delta t x = disp (8 * x) (t + 1) - disp (8 * x) t.
Proof.
  intros Hb Hr. unfold d_disp, int_add. rewrite displacement_wrap_t.
  pose proof (displacement_range (8 * x) t Hb Hr).
  pose proof (displacement_range (8 * x) (t + 1) Hb Hr).
  unfold int_sub. apply wrap32_small. int_consts. lia.
Qed.

(** ** The properties of the design document *)

(** C2. [_displacement x t] is the rounding of the amplitude (4) times the
    sine-table entry at the angle [(16 * (x - t)) & 2047], where
    [16 = 2048 / 128]; the mask is the remainder modulo 2048; and the result
    is a function of [x] and [t] alone.  The table is assumed to hold values
    of magnitude at most 1.0, so that the product is exact in 32 bits. *)
Theorem displacement_formula (x t : Z) :
  table_bounded lut_sin = true ->
  disp x t
  = round_integer
      (data.wave_vertical_amplitude
       * lut_sin (Z.land (data.wave_horizontal_multiplier * (x - t)) 2047))
  /\ Z.land (data.wave_horizontal_multiplier * (x - t)) 2047
     = (data.wave_horizontal_multiplier * (x - t)) mod 2048
  /\ data.wave_horizontal_multiplier = 2048 / 128
  /\ data.wave_horizontal_multiplier = 16
  /\ data.wave_vertical_amplitude = 4
  /\ (forall x' t', x' = x -> t' = t -> disp x' t' = disp x t).
Proof.
  intros Hb. repeat split.
  - rewrite land_2047. apply displacement_value. exact Hb.
  - apply land_2047.
  - intros x' t' -> ->. reflexivity.
Qed.

(** C5. The displacement never exceeds the amplitude, 4, in absolute value,
    for a sine table bounded by 1.0 and a rounding to a nearest integer. *)
Theorem displacement_bounded (x t : Z) :
  table_bounded lut_sin = true -> rounds_to_nearest round_integer ->
  Z.abs (disp x t) <= data.wave_vertical_amplitude.
Proof.
  intros Hb Hr. pose proof (displacement_range x t Hb Hr).
  change data.wave_vertical_amplitude with 4. lia.
Qed.

(** C6. The displacement has period 128 = 2048 / 16 in [t], for all integers
    [x] and [t], whether or not [t + 128] is computed with wrap-around; the
    angle the code computes by masking is the non-negative remainder of
    [16 * (x - t)] modulo 2048, also when [x - t] is negative. *)
Theorem displacement_periodic (x t : Z) :
  disp x (t + 128) = disp x t
  /\ disp x (int_add t 128) = disp x t
  /\ 128 = 2048 / data.wave_horizontal_multiplier
  /\ Z.land (int_mul data.wave_horizontal_multiplier (int_sub x t)) 2047
     = (data.wave_horizontal_multiplier * (x - t)) mod 2048
  /\ 0 <= (data.wave_horizontal_multiplier * (x - t)) mod 2048 < 2048.
Proof.
  assert (P : disp x (t + 128) = disp x t)
    by (rewrite !displacement_angle, wave_angle_period; reflexivity).
  split; [exact P|]. split.
  { unfold int_add. rewrite displacement_wrap_t. exact P. }
  split; [reflexivity|]. split; [|apply (wave_angle_range x t)].
  rewrite land_2047. unfold int_mul, int_sub. rewrite wrap32_mod_2048.
  destruct (wrap32_congr (x - t)) as [k ->].
  change data.wave_horizontal_multiplier with 16. unfold modulus.
  replace (16 * (x - t + 2 ^ 32 * k))
    with (16 * (x - t) + (33554432 * k) * 2048) by lia.
  apply Z.mod_add. lia.
Qed.

(** C10. From one frame to the next the displacement of a column changes by
    at most one row, so the copy of a column in [update] stores nothing
    farther than one 8-byte row above or below the column's own strip of
    [flag_height_tiles + 2] tiles in the destination slot. *)
Theorem update_shift_within_one_row (t x : Z) :
  table_bounded lut_sin = true -> table_smooth lut_sin = true ->
  rounds_to_nearest round_integer ->
  Z.abs (disp (8 * x) (t + 1) - disp (8 * x) t) <= 1
  /\ delta t x = disp (8 * x) (t + 1) - disp (8 * x) t
  /\ (forall a, written lut_sin round_integer t x a ->
        column_base (dst_slot t) x - sizeof_uint64 <= a
        < column_base (dst_slot t) x + strip_bytes + sizeof_uint64)
  /\ (forall vram a,
        ~ (column_base (dst_slot t) x - sizeof_uint64 <= a
           < column_base (dst_slot t) x + strip_bytes + sizeof_uint64) ->
        update_column lut_sin round_integer t x vram a = vram a).
Proof.
  intros Hb Hs Hr.
  pose proof (d_disp_range t x Hb Hs Hr) as Hd.
  pose proof (d_disp_value t x Hb Hr) as Hv.
  assert (W : forall a, written lut_sin round_integer t x a ->
                column_base (dst_slot t) x - sizeof_uint64 <= a
                < column_base (dst_slot t) x + strip_bytes + sizeof_uint64).
  { intros a. unfold written. change strip_bytes with 1152.
    change sizeof_uint64 with 8. rewrite update_line_eq, column_base_eq. lia. }
  split; [lia|]. split; [exact Hv|]. split; [exact W|].
  intros vram a Ha. apply update_column_miss. intros Hw. apply Ha, W, Hw.
Qed.

(** What does hold of the strips for any tile memory.  The copy of column
    [x] stores the 144 rows of the source strip, as they are when the copy is
    made, [d_disp t x] rows below the top of the destination strip; and when
    [update] returns, every row [r] of the source strip with both [r] and
    [r + d_disp t x] between 1 and 142 is, as it was before the call, at row
    [r + d_disp t x] of the destination strip.  The first and the last row of
    a strip, as source or as destination, are the ones that the copy of
    another column can store to. *)
Theorem update_shifts_column_strips (self : flags_bg) (x : Z) :
  table_bounded lut_sin = true -> table_smooth lut_sin = true ->
  rounds_to_nearest round_integer ->
  0 <= x < data.flag_width_tiles ->
  shifted_strip lut_sin round_integer 1 (rows_per_strip - 1)
    (tiles_vram (_bg self))
    (tiles_vram (_bg (update lut_sin round_integer self)))
    (_current_frame self) x
  /\ (forall vram r b,
        0 <= r < rows_per_strip -> 0 <= b < sizeof_uint64 ->
        update_column lut_sin round_integer (_current_frame self) x vram
          (row_byte (dst_slot (_current_frame self)) x
                    (r + delta (_current_frame self) x) b)
        = vram (row_byte (src_slot (_current_frame self)) x r b)).
Proof.
  intros Hb Hs Hr Hx. set (t := _current_frame self).
  assert (P : forall vram r b, 0 <= r < rows_per_strip -> 0 <= b < sizeof_uint64 ->
             update_column lut_sin round_integer t x vram
               (row_byte (dst_slot t) x (r + delta t x) b)
             = vram (row_byte (src_slot t) x r b)).
  { change rows_per_strip with 144. change sizeof_uint64 with 8.
    intros vram r b Hrr Hbb. rewrite update_column_hit.
    - f_equal. rewrite update_line_eq, column_base_eq, !row_byte_eq. lia.
    - unfold written. change strip_bytes with 1152.
      rewrite update_line_eq, row_byte_eq. lia. }
  split.
  - change data.flag_width_tiles with 24 in Hx.
    apply (update_loop_inner t (fun x' => d_disp_range t x' Hb Hs Hr)
             (tiles_vram (_bg self)) 24 (le_n _) x).
    lia.
  - exact P.
Qed.

(** How far the stores of [update] reach, for any tile memory: no farther
    than the 8-byte row on either side of the destination slot; so a byte of
    the source slot that is not in the row bordering the destination slot is
    as before the call. *)
Theorem update_keeps_source_slot (self : flags_bg) (a : Z) :
  table_bounded lut_sin = true -> table_smooth lut_sin = true ->
  rounds_to_nearest round_integer ->
  (in_slot (src_slot (_current_frame self)) a -> ~ at_slot_border a ->
   tiles_vram (_bg (update lut_sin round_integer self)) a = tiles_vram (_bg self) a)
  /\ (~ (slot_base (dst_slot (_current_frame self)) - sizeof_uint64 <= a
         < slot_base (dst_slot (_current_frame self)) + slot_bytes + sizeof_uint64) ->
      tiles_vram (_bg (update lut_sin round_integer self)) a = tiles_vram (_bg self) a).
Proof.
  intros Hb Hs Hr. set (t := _current_frame self).
  assert (F : ~ (slot_base (dst_slot t) - 8 <= a < slot_base (dst_slot t) + slot_bytes + 8) ->
              tiles_vram (_bg (update lut_sin round_integer self)) a
              = tiles_vram (_bg self) a).
  { intros Ha. cbn [update _bg tiles_vram].
    apply (update_tiles_frame t (fun x' => d_disp_range t x' Hb Hs Hr)). exact Ha. }
  split; [|exact F].
  intros Hin Hborder. apply F. revert Hin Hborder.
  unfold in_slot, at_slot_border. change slot_bytes with 27648.
  change sizeof_uint64 with 8. rewrite !slot_base_eq.
  destruct (slot_cases t) as [[-> ->] | [-> ->]]; lia.
Qed.

(** C8. [_transfer] leaves, for every column [x], the 16 tiles of the
    column's strip of the current image in the slot of the frame's parity,
    starting [_displacement (8 * x) current_frame] rows below the second tile
    of the column's strip, and sets the palette to the colours of the image. *)
Theorem _transfer_places_strips (self : flags_bg) (x : Z) :
  table_bounded lut_sin = true -> rounds_to_nearest round_integer ->
  0 <= x < data.flag_width_tiles ->
  strip_loaded lut_sin round_integer
    (tiles_vram (_bg (_transfer lut_sin round_integer self)))
    (src_slot (_current_frame self)) (_current_frame self) (_bg_item self) x
  /\ transfer_line lut_sin round_integer
       (src_slot (_current_frame self)) (_current_frame self) x
     = row_byte (src_slot (_current_frame self)) x
                (8 + disp (8 * x) (_current_frame self)) 0
  /\ palette_colors (_bg (_transfer lut_sin round_integer self))
     = palette_item (_bg_item self).
Proof.
  intros Hb Hr Hx. change data.flag_width_tiles with 24 in Hx.
  split; [|split].
  - cbn [_transfer _bg tiles_vram].
    apply (transfer_loop_loaded (_bg_item self) (_current_frame self)
             (tiles_vram (_bg self)) 24 Hb Hr (le_n _)).
    lia.
  - rewrite transfer_line_eq, row_byte_eq. lia.
  - reflexivity.
Qed.

(** C3, amended. [set_bg_item] makes the new image the current one and loads
    its strips into the slot of index [current_frame & 1], the slot that the
    next [update] reads from; the other slot, of index
    [(current_frame & 1) ^ 1], is left as it was. *)
Theorem set_bg_item_loads_source_slot (self : flags_bg) (item : regular_bg_item)
    (x : Z) :
  table_bounded lut_sin = true -> rounds_to_nearest round_integer ->
  0 <= x < data.flag_width_tiles ->
  strip_loaded lut_sin round_integer
    (tiles_vram (_bg (set_bg_item lut_sin round_integer item self)))
    (src_slot (_current_frame self)) (_current_frame self) item x
  /\ bg_item (set_bg_item lut_sin round_integer item self) = item
  /\ (forall a, in_slot (dst_slot (_current_frame self)) a ->
        tiles_vram (_bg (set_bg_item lut_sin round_integer item self)) a
        = tiles_vram (_bg self) a).
Proof.
  intros Hb Hr Hx. change data.flag_width_tiles with 24 in Hx.
  split; [|split].
  - cbn [set_bg_item _transfer _bg _bg_item _current_frame tiles_vram].
    apply (transfer_loop_loaded item (_current_frame self)
             (tiles_vram (_bg self)) 24 Hb Hr (le_n _)).
    lia.
  - reflexivity.
  - intros a Ha.
    cbn [set_bg_item _transfer _bg _bg_item _current_frame tiles_vram].
    apply (transfer_loop_frame item (_current_frame self) a
             (tiles_vram (_bg self)) 24 Hb Hr (le_n _)).
    revert Ha. unfold in_slot. change slot_bytes with 27648.
    rewrite !slot_base_eq.
    destruct (slot_cases (_current_frame self)) as [[-> ->] | [-> ->]]; lia.
Qed.

(** C7. The frame counter is 0 when the object is created, and after any
    sequence of calls it is the number of [update] calls in the sequence (in
    particular [N] after [N] updates), as long as that number is an [int]. *)
Theorem frame_counter_counts_updates (item : regular_bg_item) (vram : tile_memory)
    (calls : list call) :
  Z.of_nat (count_updates calls) <= max_signed ->
  _current_frame (create lut_sin round_integer item vram) = 0
  /\ _current_frame (run lut_sin round_integer
                         (create lut_sin round_integer item vram) calls)
     = Z.of_nat (count_updates calls)
  /\ (forall N, calls = repeat CallUpdate N ->
        _current_frame (run lut_sin round_integer
                            (create lut_sin round_integer item vram) calls)
        = Z.of_nat N).
Proof.
  intros Hn.
  assert (R : _current_frame (run lut_sin round_integer
                                  (create lut_sin round_integer item vram) calls)
              = Z.of_nat (count_updates calls))
    by (rewrite run_frame; apply count_up; exact Hn).
  split; [reflexivity|]. split; [exact R|].
  intros N E. rewrite R, E, count_updates_repeat. reflexivity.
Qed.

(** C9. [set_bg_item] leaves the frame counter, and with it the parity that
    selects the source and destination slots, as it was; in any sequence of
    calls the counter ends where it would without the [set_bg_item] calls. *)
Theorem set_bg_item_keeps_frame_counter (self : flags_bg) (item : regular_bg_item)
    (calls : list call) :
  _current_frame (set_bg_item lut_sin round_integer item self) = _current_frame self
  /\ src_slot (_current_frame (set_bg_item lut_sin round_integer item self))
     = src_slot (_current_frame self)
  /\ dst_slot (_current_frame (set_bg_item lut_sin round_integer item self))
     = dst_slot (_current_frame self)
  /\ _current_frame (run lut_sin round_integer self calls)
     = _current_frame (run lut_sin round_integer self (filter is_update calls)).
Proof.
  repeat split.
  rewrite !run_frame, count_updates_filter. reflexivity.
Qed.

End FlagsFacts.

(** ** The rows at the borders

    What the update does to the first and last row of a strip, for every
    sine table that is bounded, smooth and close to the sine at four angles,
    and every rounding to a nearest integer. *)

Section BorderRows.

Variable lut_sin : Z -> Z.
Variable round_integer : Z -> Z.

Hypothesis bounded : table_bounded lut_sin = true.
Hypothesis smooth : table_smooth lut_sin = true.
Hypothesis nearest : rounds_to_nearest round_integer.

Local Abbreviation delta := (d_disp lut_sin round_integer).
Local Abbreviation line := (update_line lut_sin round_integer).

(** The byte at [a] after the loop is the one its last writer put there. *)
Lemma update_loop_last_writer (t a : Z) (vram : tile_memory) (n : nat) (x : Z) :
  0 <= x < Z.of_nat n ->
  written lut_sin round_integer t x a ->
  (forall x', x < x' < Z.of_nat n -> ~ written lut_sin round_integer t x' a) ->
  (forall x', 0 <= x' < x ->
     ~ written lut_sin round_integer t x'
         (column_base (src_slot t) x + (a - line t x))) ->
  for_loop n (update_column lut_sin round_integer t) vram a
  = vram (column_base (src_slot t) x + (a - line t x)).
Proof.
  induction n as [|n IH]; intros Hx Hw Hafter Hbefore; [lia|].
  rewrite for_loop_S.
  assert (Hcases : x = Z.of_nat n \/ x < Z.of_nat n) by lia.
  destruct Hcases as [E | Hlt].
  - subst x. rewrite update_column_hit by exact Hw.
    apply update_loop_frame. exact Hbefore.
  - rewrite update_column_miss by (apply Hafter; lia).
    apply IH; [lia | exact Hw | | exact Hbefore].
    intros x' Hx'. apply Hafter. lia.
Qed.

Lemma shift_at_2016 (t x : Z) :
  table_falls_through_half lut_sin -> wave_angle (8 * x) t = 2016 ->
  delta t x = - 1.
Proof.
  intros [H0 H1] Ha. rewrite d_disp_value by assumption.
  rewrite !displacement_value by assumption.
  rewrite wave_angle_succ, Ha. change ((2016 - 16) mod 2048) with 2000.
  pose proof (rounds_to_nearest_spec _ nearest (4 * lut_sin 2016)).
  pose proof (rounds_to_nearest_spec _ nearest (4 * lut_sin 2000)).
  lia.
Qed.

Lemma shift_at_1888 (t x : Z) :
  table_stays_near_two lut_sin -> wave_angle (8 * x) t = 1888 ->
  delta t x = 0.
Proof.
  intros [H0 H1] Ha. rewrite d_disp_value by assumption.
  rewrite !displacement_value by assumption.
  rewrite wave_angle_succ, Ha. change ((1888 - 16) mod 2048) with 1872.
  pose proof (rounds_to_nearest_spec _ nearest (4 * lut_sin 1888)).
  pose proof (rounds_to_nearest_spec _ nearest (4 * lut_sin 1872)).
  lia.
Qed.

(** Frame 2: the copy of column 0 starts in the last row of slot 0, the
    source slot, and puts the first row of the slot there. *)
Lemma update_frame_2_border (vram : tile_memory) (b : Z) :
  table_falls_through_half lut_sin -> 0 <= b < sizeof_uint64 ->
  update_tiles lut_sin round_integer 2 vram (slot_base 1 - sizeof_uint64 + b)
  = vram (slot_base 0 + b).
Proof.
  change sizeof_uint64 with 8. intros Hf Hb.
  pose proof (shift_at_2016 2 0 Hf eq_refl) as D0.
  unfold update_tiles. change (Z.to_nat data.flag_width_tiles) with 24%nat.
  rewrite (update_loop_last_writer 2 _ vram 24 0).
  - f_equal. rewrite update_line_eq, column_base_eq, !slot_base_eq, D0.
    change (src_slot 2) with 0. change (dst_slot 2) with 1. lia.
  - lia.
  - unfold written. change strip_bytes with 1152.
    rewrite update_line_eq, slot_base_eq, D0. change (dst_slot 2) with 1. lia.
  - intros x' Hx'. unfold written. change strip_bytes with 1152.
    rewrite update_line_eq, slot_base_eq. change (dst_slot 2) with 1.
    pose proof (d_disp_range lut_sin round_integer 2 x' bounded smooth nearest).
    lia.
  - intros x' Hx'. lia.
Qed.

(** Frame 10: column 0 stays and column 1 moves up by one row, so the last
    row of column 0 in slot 1 receives the first row of column 1 of slot 0. *)
Lemma update_frame_10_edge (vram : tile_memory) (b : Z) :
  table_falls_through_half lut_sin -> table_stays_near_two lut_sin ->
  0 <= b < sizeof_uint64 ->
  delta 10 0 = 0
  /\ update_tiles lut_sin round_integer 10 vram (row_byte 1 0 143 b)
     = vram (row_byte 0 1 0 b).
Proof.
  change sizeof_uint64 with 8. intros Hf Hn Hb.
  pose proof (shift_at_2016 10 1 Hf eq_refl) as D1.
  pose proof (shift_at_1888 10 0 Hn eq_refl) as D0.
  split; [exact D0|].
  unfold update_tiles. change (Z.to_nat data.flag_width_tiles) with 24%nat.
  rewrite (update_loop_last_writer 10 _ vram 24 1).
  - f_equal. rewrite update_line_eq, column_base_eq, !row_byte_eq, D1.
    change (src_slot 10) with 0. change (dst_slot 10) with 1. lia.
  - lia.
  - unfold written. change strip_bytes with 1152.
    rewrite update_line_eq, row_byte_eq, D1. change (dst_slot 10) with 1. lia.
  - intros x' Hx'. unfold written. change strip_bytes with 1152.
    rewrite update_line_eq, row_byte_eq. change (dst_slot 10) with 1.
    pose proof (d_disp_range lut_sin round_integer 10 x' bounded smooth nearest).
    lia.
  - intros x' Hx'. assert (x' = 0) by lia. subst x'.
    unfold written. change strip_bytes with 1152.
    rewrite !update_line_eq, column_base_eq, row_byte_eq, D0, D1.
    change (src_slot 10) with 0. change (dst_slot 10) with 1. lia.
Qed.

End BorderRows.

(** ** The reference instance meets the assumptions *)

Lemma ref_table_bounded : table_bounded Ref.lut_sin = true.
Proof. vm_compute. reflexivity. Qed.

Lemma ref_table_smooth : table_smooth Ref.lut_sin = true.
Proof. vm_compute. reflexivity. Qed.

Lemma ref_rounds_to_nearest : rounds_to_nearest Ref.round_integer.
Proof.
  intros raw. unfold Ref.round_integer.
  change fixed_half_scale with 2048. change fixed_precision with 12.
  change fixed_scale with 4096.
  rewrite Z.shiftr_div_pow2 by lia. change (2 ^ 12) with 4096.
  pose proof (Z.div_mod (raw + 2048) 4096 ltac:(lia)).
  pose proof (Z.mod_pos_bound (raw + 2048) 4096 ltac:(lia)).
  lia.
Qed.

Lemma ref_table_falls_through_half : table_falls_through_half Ref.lut_sin.
Proof. vm_compute. repeat split. Qed.

Lemma ref_table_stays_near_two : table_stays_near_two Ref.lut_sin.
Proof. vm_compute. repeat split. Qed.

(** The rows move in the reference run as the sine says: the displacement of
    column 0 over the first twelve frames, and the shifts of the columns at
    frame 10. *)
Example ref_displacement_column_0 :
  map (Ref.displacement 0) [0; 1; 2; 3; 4; 5; 6; 7; 8; 9; 10; 11]
  = [0; 0; 0; -1; -1; -1; -1; -1; -2; -2; -2; -2].
Proof. vm_compute. reflexivity. Qed.

Example ref_shifts_frame_10 :
  map (d_disp Ref.lut_sin Ref.round_integer 10) [0; 1; 2; 3; 22; 23]
  = [0; -1; 0; -1; 0; 0].
Proof. vm_compute. reflexivity. Qed.

(** ** The properties on the reference run *)

Lemma displacement_formula_witness :
  table_bounded Ref.lut_sin = true
  /\ Ref.displacement 8 11 = Ref.round_integer (4 * Ref.lut_sin 2000).
Proof.
  split; [vm_compute; reflexivity|].
  refine (proj1 (displacement_formula Ref.lut_sin Ref.round_integer 8 11 _)).
  vm_compute; reflexivity.
Defined.

Lemma displacement_bounded_witness : Z.abs (Ref.displacement 0 30) <= 4.
Proof.
  refine (displacement_bounded Ref.lut_sin Ref.round_integer 0 30 _ _).
  - vm_compute; reflexivity.
  - exact ref_rounds_to_nearest.
Defined.

Lemma update_shift_within_one_row_witness :
  Z.abs (Ref.displacement (8 * 1) (10 + 1) - Ref.displacement (8 * 1) 10) <= 1.
Proof.
  refine (proj1 (update_shift_within_one_row Ref.lut_sin Ref.round_integer 10 1 _ _ _)).
  - vm_compute; reflexivity.
  - vm_compute; reflexivity.
  - exact ref_rounds_to_nearest.
Defined.

Lemma update_shifts_column_strips_witness :
  shifted_strip Ref.lut_sin Ref.round_integer 1 (rows_per_strip - 1)
    (tiles_vram (_bg (Ref.after 10)))
    (tiles_vram (_bg (update Ref.lut_sin Ref.round_integer (Ref.after 10))))
    (_current_frame (Ref.after 10)) 0.
Proof.
  refine (proj1 (update_shifts_column_strips Ref.lut_sin Ref.round_integer
                   (Ref.after 10) 0 _ _ _ _)).
  - vm_compute; reflexivity.
  - vm_compute; reflexivity.
  - exact ref_rounds_to_nearest.
  - vm_compute; split; [discriminate | reflexivity].
Defined.

Lemma update_keeps_source_slot_witness :
  tiles_vram (_bg (update Ref.lut_sin Ref.round_integer (Ref.after 2))) 27703
  = tiles_vram (_bg (Ref.after 2)) 27703.
Proof.
  refine (proj1 (update_keeps_source_slot Ref.lut_sin Ref.round_integer
                   (Ref.after 2) 27703 _ _ _) _ _).
  - vm_compute; reflexivity.
  - vm_compute; reflexivity.
  - exact ref_rounds_to_nearest.
  - vm_compute; split; [discriminate | reflexivity].
  - vm_compute. intros [H _]. apply H. reflexivity.
Defined.

Lemma _transfer_places_strips_witness :
  strip_loaded Ref.lut_sin Ref.round_integer
    (tiles_vram (_bg (_transfer Ref.lut_sin Ref.round_integer (Ref.after 3))))
    (src_slot (_current_frame (Ref.after 3))) (_current_frame (Ref.after 3))
    (_bg_item (Ref.after 3)) 5.
Proof.
  refine (proj1 (_transfer_places_strips Ref.lut_sin Ref.round_integer
                   (Ref.after 3) 5 _ _ _)).
  - vm_compute; reflexivity.
  - exact ref_rounds_to_nearest.
  - vm_compute; split; [discriminate | reflexivity].
Defined.

Lemma set_bg_item_loads_source_slot_witness :
  strip_loaded Ref.lut_sin Ref.round_integer
    (tiles_vram (_bg (set_bg_item Ref.lut_sin Ref.round_integer Ref.flag_b Ref.start)))
    (src_slot (_current_frame Ref.start)) (_current_frame Ref.start) Ref.flag_b 0.
Proof.
  refine (proj1 (set_bg_item_loads_source_slot Ref.lut_sin Ref.round_integer
                   Ref.start Ref.flag_b 0 _ _ _)).
  - vm_compute; reflexivity.
  - exact ref_rounds_to_nearest.
  - vm_compute; split; [discriminate | reflexivity].
Defined.

Lemma frame_counter_counts_updates_witness :
  _current_frame (run Ref.lut_sin Ref.round_integer Ref.start (repeat CallUpdate 256))
  = 256.
Proof.
  refine (proj1 (proj2 (frame_counter_counts_updates Ref.lut_sin Ref.round_integer
                          Ref.flag_a Ref.stale_vram (repeat CallUpdate 256) _))).
  vm_compute. discriminate.
Defined.

(** ** Where the design document says more than the program does *)

(** On tiles that were not blank at creation the strips do not move whole:
    in the update of frame 10 column 1 moves up by one row while column 0
    stays, so the last row of column 0 in the destination slot receives the
    first row of column 1 of the source slot, not the last row of column 0. *)
Lemma update_overwrites_strip_edge :
  ~ shifted_strip Ref.lut_sin Ref.round_integer 0 rows_per_strip
      (tiles_vram (_bg (Ref.after 10)))
      (tiles_vram (_bg (update Ref.lut_sin Ref.round_integer (Ref.after 10))))
      (_current_frame (Ref.after 10)) 0.
Proof.
  intros H.
  pose proof (H 143 0
                ltac:(vm_compute; split; [discriminate | reflexivity])
                ltac:(vm_compute; split; [discriminate | reflexivity])
                ltac:(vm_compute; split; [discriminate | reflexivity])) as E.
  vm_compute in E. discriminate E.
Qed.

(** On tiles that were not blank at creation the source slot does not stay
    as it was: in the update of frame 2 (source slot 0) column 0 moves up by
    one row, and its copy starts one row above slot 1, in the last row of
    slot 0. *)
Lemma update_changes_source_slot_border :
  ~ source_slot_untouched
      (tiles_vram (_bg (Ref.after 2)))
      (tiles_vram (_bg (update Ref.lut_sin Ref.round_integer (Ref.after 2))))
      (_current_frame (Ref.after 2)).
Proof.
  intros H.
  pose proof (H 27704 ltac:(vm_compute; split; [discriminate | reflexivity])) as E.
  vm_compute in E. discriminate E.
Qed.

(** C3 as stated fails: after [set_bg_item] at frame 0 the strip of column 0
    of the new image is not in slot 1. *)
Lemma set_bg_item_skips_other_slot :
  ~ strip_loaded Ref.lut_sin Ref.round_integer
      (tiles_vram (_bg (set_bg_item Ref.lut_sin Ref.round_integer Ref.flag_b Ref.start)))
      (dst_slot (_current_frame Ref.start)) (_current_frame Ref.start) Ref.flag_b 0.
Proof.
  intros H.
  pose proof (H 0 ltac:(vm_compute; split; [discriminate | reflexivity])) as E.
  vm_compute in E. discriminate E.
Qed.

(** A remark on the allocation.  Slot 1 ends where the allocated tiles end,
    so when the last column moves down by one row while slot 1 is the
    destination (frame 98 of the reference run), the last row of its copy is
    stored after the last allocated byte. *)
Example ref_store_after_allocation :
  slot_base 1 + slot_bytes = allocated_bytes
  /\ d_disp Ref.lut_sin Ref.round_integer 98 23 = 1
  /\ dst_slot 98 = 1
  /\ written Ref.lut_sin Ref.round_integer 98 23 allocated_bytes.
Proof.
  vm_compute. repeat split; discriminate.
Qed.

(** * Part III: the rest of [main.cpp] *)

(** ** The wave *)

Section Wave.

Variable lut_sin : Z -> Z.
Variable round_integer : Z -> Z.

Local Abbreviation disp := (_displacement lut_sin round_integer).
Local Abbreviation delta := (d_disp lut_sin round_integer).

Lemma displacement_same_angle (x t x' t' : Z) :
  wave_angle x t = wave_angle x' t' -> disp x t = disp x' t'.
Proof.
  intros E. rewrite !(displacement_angle lut_sin round_integer), E. reflexivity.
Qed.

Lemma wave_angle_shift (x t k : Z) : wave_angle (x + k) (t + k) = wave_angle x t.
Proof. unfold wave_angle. f_equal. lia. Qed.

Lemma wave_angle_period_x (x t : Z) : wave_angle (x + 128) t = wave_angle x t.
Proof.
  unfold wave_angle. change data.wave_horizontal_multiplier with 16.
  replace (16 * (x + 128 - t)) with (16 * (x - t) + 1 * 2048) by lia.
  apply Z.mod_add. lia.
Qed.

(** X12. The wave travels one pixel per frame without changing shape, and repeats
    every [wave_horizontal_period] pixels; for all integers, also negative
    ones and ones whose difference wraps around. *)
Theorem displacement_travels (x t k : Z) :
  disp (x + k) (t + k) = disp x t
  /\ disp (x + data.wave_horizontal_period) t = disp x t
  /\ disp x (int_sub t k) = disp (x + k) t.
Proof.
  split; [|split]; apply displacement_same_angle.
  - apply wave_angle_shift.
  - apply wave_angle_period_x.
  - unfold int_sub. rewrite wave_angle_wrap_t. unfold wave_angle. f_equal. lia.
Qed.

Lemma d_disp_same_angle (t x t' x' : Z) :
  wave_angle (8 * x) t = wave_angle (8 * x') t' -> delta t x = delta t' x'.
Proof.
  intros E. unfold d_disp. f_equal; apply displacement_same_angle.
  - rewrite !wave_angle_next, E. reflexivity.
  - exact E.
Qed.

(** X13. The row shift that [update] applies is the same for two columns 16
    apart, the same 8 frames later one column further, and the same 128
    frames later, whether or not the frame counter wraps in between. *)
Theorem d_disp_repeats (t x : Z) :
  delta t (x + 16) = delta t x
  /\ delta (int_add t 8) (x + 1) = delta t x
  /\ delta (int_add t 128) x = delta t x.
Proof.
  split; [|split]; apply d_disp_same_angle.
  - replace (8 * (x + 16)) with (8 * x + 128) by lia. apply wave_angle_period_x.
  - unfold int_add. rewrite wave_angle_wrap_t.
    replace (8 * (x + 1)) with (8 * x + 8) by lia. apply wave_angle_shift.
  - unfold int_add. rewrite wave_angle_wrap_t. apply wave_angle_period.
Qed.

End Wave.

(** ** The map of [create] *)

Lemma map_store_same (vram : map_memory) (i v : Z) : map_store vram i v i = v.
Proof. unfold map_store. rewrite Z.eqb_refl. reflexivity. Qed.

Lemma map_store_other (vram : map_memory) (i v k : Z) :
  k <> i -> map_store vram i v k = vram k.
Proof. unfold map_store. intros H. destruct (Z.eqb_spec k i); [contradiction|reflexivity]. Qed.

Lemma create_map_cell_store (x y : Z) (vram : map_memory) :
  0 <= x < 24 -> 0 <= y < 18 ->
  create_map_cell x y vram = map_store vram (32 * (7 + y) + 4 + x) (18 * x + y + 1).
Proof.
  intros Hx Hy. unfold create_map_cell. cbv zeta.
  change data.flag_offset_x with 4. change data.flag_offset_y with 8.
  change data.flag_height_tiles with 16. unfold regular_bg_map_cell.
  rewrite Z.mod_small by (change (2 ^ 16) with 65536; lia).
  f_equal; lia.
Qed.

(** The inner loop over the first [n] tiles of column [x]. *)
Lemma create_column_hit (x : Z) (vram : map_memory) (n : nat) (y : Z) :
  0 <= x < 24 -> (n <= 18)%nat -> 0 <= y < Z.of_nat n ->
  for_loop n (fun y => create_map_cell x y) vram (32 * (7 + y) + 4 + x)
  = 18 * x + y + 1.
Proof.
  intros Hx. induction n as [|n IH]; intros Hn Hy; [lia|].
  rewrite for_loop_S, create_map_cell_store by lia.
  destruct (Z.eq_dec y (Z.of_nat n)) as [-> | Hne].
  - apply map_store_same.
  - rewrite map_store_other by lia. apply IH; lia.
Qed.

Lemma create_column_miss (x : Z) (vram : map_memory) (n : nat) (k : Z) :
  0 <= x < 24 -> (n <= 18)%nat ->
  (forall y, 0 <= y < Z.of_nat n -> k <> 32 * (7 + y) + 4 + x) ->
  for_loop n (fun y => create_map_cell x y) vram k = vram k.
Proof.
  intros Hx. induction n as [|n IH]; intros Hn Hk; [reflexivity|].
  rewrite for_loop_S, create_map_cell_store by lia.
  rewrite map_store_other by (apply Hk; lia).
  apply IH; [lia|]. intros y Hy. apply Hk. lia.
Qed.

(** The outer loop over the first [n] columns. *)
Lemma create_columns_hit (vram : map_memory) (n : nat) (x y : Z) :
  (n <= 24)%nat -> 0 <= x < Z.of_nat n -> 0 <= y < 18 ->
  for_loop n (fun x => for_loop 18 (fun y => create_map_cell x y)) vram
           (32 * (7 + y) + 4 + x)
  = 18 * x + y + 1.
Proof.
  induction n as [|n IH]; intros Hn Hx Hy; [lia|].
  rewrite for_loop_S.
  destruct (Z.eq_dec x (Z.of_nat n)) as [-> | Hne].
  - apply create_column_hit; lia.
  - rewrite create_column_miss by (try lia; intros y' Hy'; lia).
    apply IH; lia.
Qed.

Lemma create_columns_miss (vram : map_memory) (n : nat) (k : Z) :
  (n <= 24)%nat ->
  (forall x y, 0 <= x < Z.of_nat n -> 0 <= y < 18 -> k <> 32 * (7 + y) + 4 + x) ->
  for_loop n (fun x => for_loop 18 (fun y => create_map_cell x y)) vram k = vram k.
Proof.
  induction n as [|n IH]; intros Hn Hk; [reflexivity|].
  rewrite for_loop_S.
  rewrite create_column_miss by (try lia; intros y Hy; apply Hk; lia).
  apply IH; [lia|]. intros x y Hx Hy. apply Hk; lia.
Qed.

(** A cell of the map is a cell of the flag area or it is not. *)
Lemma flag_cell_dec (k : Z) :
  (exists x y, 0 <= x < 24 /\ 0 <= y < 18 /\ k = 32 * (7 + y) + 4 + x)
  \/ (forall x y, 0 <= x < 24 -> 0 <= y < 18 -> k <> 32 * (7 + y) + 4 + x).
Proof.
  pose proof (Z.div_mod k 32 ltac:(lia)) as E.
  pose proof (Z.mod_pos_bound k 32 ltac:(lia)) as B.
  destruct (Z_le_dec 4 (k mod 32)); [|right; intros; lia].
  destruct (Z_lt_dec (k mod 32) 28); [|right; intros; lia].
  destruct (Z_le_dec 7 (k / 32)); [|right; intros; lia].
  destruct (Z_lt_dec (k / 32) 25); [|right; intros; lia].
  left. exists (k mod 32 - 4), (k / 32 - 7). lia.
Qed.

Lemma create_map_hit (vram : map_memory) (x y : Z) :
  0 <= x < 24 -> 0 <= y < 18 ->
  create_map vram (32 * (7 + y) + 4 + x) = 18 * x + y + 1.
Proof.
  intros Hx Hy. unfold create_map.
  change (Z.to_nat data.flag_width_tiles) with 24%nat.
  change (Z.to_nat (data.flag_height_tiles + 2)) with 18%nat.
  apply create_columns_hit; lia.
Qed.

Lemma create_map_miss (vram : map_memory) (k : Z) :
  (forall x y, 0 <= x < 24 -> 0 <= y < 18 -> k <> 32 * (7 + y) + 4 + x) ->
  create_map vram k = fill_blank vram k.
Proof.
  intros Hk. unfold create_map.
  change (Z.to_nat data.flag_width_tiles) with 24%nat.
  change (Z.to_nat (data.flag_height_tiles + 2)) with 18%nat.
  apply create_columns_miss; [lia | exact Hk].
Qed.

(** X14. The map that [create] builds: the cell of tile [y] of column [x], at
    column [flag_offset_x + x] and row [flag_offset_y + y - 1] of the 32 by
    32 map, holds [18 * x + y + 1]; each of these cells lies in the map; every
    other cell of the map is blank; nothing outside the map is stored to. *)
Theorem create_map_cells (vram : map_memory) (x y : Z) :
  0 <= x < data.flag_width_tiles -> 0 <= y < data.flag_height_tiles + 2 ->
  create_map vram (32 * (data.flag_offset_y + y - 1) + (data.flag_offset_x + x))
  = (data.flag_height_tiles + 2) * x + y + 1
  /\ 0 <= 32 * (data.flag_offset_y + y - 1) + (data.flag_offset_x + x) < map_cells_count
  /\ (forall k,
        (forall x' y', 0 <= x' < data.flag_width_tiles ->
                       0 <= y' < data.flag_height_tiles + 2 ->
                       k <> 32 * (data.flag_offset_y + y' - 1) + (data.flag_offset_x + x')) ->
        create_map vram k = if (0 <=? k) && (k <? map_cells_count) then 0 else vram k).
Proof.
  change data.flag_width_tiles with 24. change (data.flag_height_tiles + 2) with 18.
  change data.flag_offset_x with 4. change data.flag_offset_y with 8.
  change map_cells_count with 1024.
  intros Hx Hy. split; [|split].
  - replace (32 * (8 + y - 1) + (4 + x)) with (32 * (7 + y) + 4 + x) by lia.
    apply create_map_hit; lia.
  - lia.
  - intros k Hk. rewrite create_map_miss; [reflexivity|].
    intros x' y' Hx' Hy'. specialize (Hk x' y' Hx' Hy'). lia.
Qed.

(** X15. Read as the number of an 8bpp tile counted from the start of the
    allocated tiles, a cell of the flag area names tile [y] of the strip of
    column [x] in slot 0, and no cell of the map names a tile of slot 1: the
    map that [create] builds never refers to the second slot. *)
Theorem create_map_names_slot_0 (vram : map_memory) :
  (forall x y,
     0 <= x < data.flag_width_tiles -> 0 <= y < data.flag_height_tiles + 2 ->
     tile_ptr_add tiles_base_ptr
       (2 * create_map vram (32 * (data.flag_offset_y + y - 1) + (data.flag_offset_x + x)))
     = tile_ptr_add (column_base 0 x) (2 * y))
  /\ (forall k, 0 <= k < map_cells_count ->
        let tile := tile_ptr_add tiles_base_ptr (2 * create_map vram k) in
        tile = tiles_base_ptr \/ (in_slot 0 tile /\ in_slot 0 (tile + 2 * sizeof_tile - 1))).
Proof.
  change data.flag_width_tiles with 24. change (data.flag_height_tiles + 2) with 18.
  change data.flag_offset_x with 4. change data.flag_offset_y with 8.
  split.
  - intros x y Hx Hy.
    replace (32 * (8 + y - 1) + (4 + x)) with (32 * (7 + y) + 4 + x) by lia.
    rewrite create_map_hit by lia.
    unfold tile_ptr_add, tiles_base_ptr, sizeof_tile.
    rewrite column_base_eq. lia.
  - intros k Hk. cbv zeta. change map_cells_count with 1024 in Hk.
    destruct (flag_cell_dec k) as [[x [y [Hx [Hy ->]]]] | Hmiss].
    + right. rewrite create_map_hit by lia.
      unfold in_slot, tile_ptr_add, tiles_base_ptr, sizeof_tile.
      change slot_bytes with 27648. rewrite slot_base_eq. lia.
    + left. rewrite create_map_miss by exact Hmiss. unfold fill_blank.
      change map_cells_count with 1024.
      destruct (Z.leb_spec 0 k); [|lia]. destruct (Z.ltb_spec k 1024); [|lia].
      reflexivity.
Qed.

(** ** The image follows the wave *)

Lemma land_1_mod (t : Z) : Z.land t 1 = t mod 2.
Proof. change 1 with (Z.ones 1). rewrite Z.land_ones by lia. reflexivity. Qed.

Lemma wrap32_mod_2 (z : Z) : wrap32 z mod 2 = z mod 2.
Proof.
  destruct (wrap32_congr z) as [k ->]. unfold modulus.
  replace (z + 2 ^ 32 * k) with (z + (2147483648 * k) * 2) by lia.
  apply Z.mod_add. lia.
Qed.

Lemma slot_next (t : Z) :
  src_slot (int_add t 1) = dst_slot t /\ dst_slot (int_add t 1) = src_slot t.
Proof.
  unfold src_slot, dst_slot, int_add. rewrite !land_1_mod, wrap32_mod_2.
  pose proof (Z.mod_pos_bound t 2 ltac:(lia)) as B.
  pose proof (Z.div_mod t 2 ltac:(lia)) as E.
  assert (C : t mod 2 = 0 \/ t mod 2 = 1) by lia.
  destruct C as [C | C]; rewrite C.
  - replace ((t + 1) mod 2) with 1; [split; reflexivity|].
    apply (Z.mod_unique (t + 1) 2 (t / 2) 1); lia.
  - replace ((t + 1) mod 2) with 0; [split; reflexivity|].
    apply (Z.mod_unique (t + 1) 2 (t / 2 + 1) 0); lia.
Qed.

Section ImageInPlace.

Variable lut_sin : Z -> Z.
Variable round_integer : Z -> Z.

Hypothesis bounded : table_bounded lut_sin = true.
Hypothesis smooth : table_smooth lut_sin = true.
Hypothesis nearest : rounds_to_nearest round_integer.

Local Abbreviation disp := (_displacement lut_sin round_integer).
Local Abbreviation delta := (d_disp lut_sin round_integer).

Lemma displacement_next (t x : Z) :
  disp (8 * x) (int_add t 1) = disp (8 * x) t + delta t x.
Proof.
  rewrite (d_disp_value lut_sin round_integer t x bounded nearest).
  unfold int_add. rewrite displacement_wrap_t. lia.
Qed.

Lemma shifts_small (t : Z) : forall x, - 1 <= delta t x <= 1.
Proof. intros x. apply d_disp_range; assumption. Qed.

Lemma byte_of_strip (k : Z) :
  0 <= k < 1024 -> 0 <= k / 8 < 128 /\ 0 <= k mod 8 < 8 /\ k = 8 * (k / 8) + k mod 8.
Proof.
  intros Hk. pose proof (Z.div_mod k 8 ltac:(lia)).
  pose proof (Z.mod_pos_bound k 8 ltac:(lia)). lia.
Qed.

(** One update moves the strip of a column to its place of the next frame,
    in the other slot, whatever else the tile memory holds. *)
Lemma update_tiles_moves_strip (item : regular_bg_item) (t x : Z) (m : tile_memory) :
  0 <= x < 24 ->
  strip_loaded lut_sin round_integer m (src_slot t) t item x ->
  strip_loaded lut_sin round_integer (update_tiles lut_sin round_integer t m)
               (src_slot (int_add t 1)) (int_add t 1) item x.
Proof.
  intros Hx L k Hk. change image_strip_bytes with 1024 in *.
  destruct (byte_of_strip k Hk) as [Hq [Hr Ek]].
  pose proof (displacement_range lut_sin round_integer (8 * x) t bounded nearest) as R0.
  pose proof (displacement_range lut_sin round_integer (8 * x) (int_add t 1)
                                 bounded nearest) as R1.
  pose proof (displacement_next t x) as N.
  rewrite <- (L k Hk). rewrite (proj1 (slot_next t)).
  pose proof (update_loop_inner lut_sin round_integer t (shifts_small t) m 24 (le_n _)
                x ltac:(lia) (8 + disp (8 * x) t + k / 8) (k mod 8)) as S.
  change rows_per_strip with 144 in S. change sizeof_uint64 with 8 in S.
  assert (A1 : transfer_line lut_sin round_integer (dst_slot t) (int_add t 1) x + k
               = row_byte (dst_slot t) x
                          (8 + disp (8 * x) t + k / 8 + delta t x) (k mod 8))
    by (rewrite transfer_line_eq, row_byte_eq; lia).
  assert (A0 : transfer_line lut_sin round_integer (src_slot t) t x + k
               = row_byte (src_slot t) x (8 + disp (8 * x) t + k / 8) (k mod 8))
    by (rewrite transfer_line_eq, row_byte_eq; lia).
  rewrite A1, A0. apply S; lia.
Qed.

Lemma _transfer_image_in_place (self : flags_bg) :
  image_in_place lut_sin round_integer (_transfer lut_sin round_integer self).
Proof.
  intros x Hx. change data.flag_width_tiles with 24 in Hx.
  cbn [_transfer _bg _bg_item _current_frame tiles_vram].
  apply (transfer_loop_loaded lut_sin round_integer (_bg_item self)
           (_current_frame self) (tiles_vram (_bg self)) 24 bounded nearest (le_n _)).
  lia.
Qed.

Lemma update_image_in_place (self : flags_bg) :
  image_in_place lut_sin round_integer self ->
  image_in_place lut_sin round_integer (update lut_sin round_integer self).
Proof.
  intros I x Hx. cbn [update _bg _bg_item _current_frame tiles_vram].
  apply update_tiles_moves_strip; [exact Hx | apply I; exact Hx].
Qed.

Lemma perform_image_in_place (self : flags_bg) (c : call) :
  image_in_place lut_sin round_integer self ->
  image_in_place lut_sin round_integer (perform lut_sin round_integer self c).
Proof.
  intros I. destruct c as [|item]; cbn [perform].
  - apply update_image_in_place. exact I.
  - apply _transfer_image_in_place.
Qed.

Lemma run_image_in_place (calls : list call) :
  forall self, image_in_place lut_sin round_integer self ->
               image_in_place lut_sin round_integer (run lut_sin round_integer self calls).
Proof.
  unfold run. induction calls as [|c calls IH]; intros self I; [exact I|].
  cbn [fold_left]. apply IH, perform_image_in_place, I.
Qed.

End ImageInPlace.

(** ** Tiles that start blank *)

Section CleanFacts.

Variable lut_sin : Z -> Z.
Variable round_integer : Z -> Z.

Hypothesis bounded : table_bounded lut_sin = true.
Hypothesis smooth : table_smooth lut_sin = true.
Hypothesis nearest : rounds_to_nearest round_integer.

Local Abbreviation disp := (_displacement lut_sin round_integer).
Local Abbreviation delta := (d_disp lut_sin round_integer).
Local Abbreviation line := (update_line lut_sin round_integer).

Lemma written_dec (t x a : Z) :
  {written lut_sin round_integer t x a} + {~ written lut_sin round_integer t x a}.
Proof.
  unfold written.
  destruct (Z_le_dec (line t x) a); [|right; lia].
  destruct (Z_lt_dec a (line t x + strip_bytes)); [left; lia | right; lia].
Qed.

(** A stored byte is byte [b] of row [r] of the copy, for some [r] and [b]. *)
Lemma written_form (t x a : Z) :
  written lut_sin round_integer t x a ->
  exists r b, 0 <= r < 144 /\ 0 <= b < 8 /\ a = line t x + 8 * r + b.
Proof.
  unfold written. change strip_bytes with 1152. intros W.
  exists ((a - line t x) / 8), ((a - line t x) mod 8).
  pose proof (Z.div_mod (a - line t x) 8 ltac:(lia)).
  pose proof (Z.mod_pos_bound (a - line t x) 8 ltac:(lia)). lia.
Qed.

Section UpdateOnClean.

Variable item : regular_bg_item.
Variable t : Z.
Variable m : tile_memory.

Hypothesis cleanliness : clean lut_sin round_integer item t m.

Local Abbreviation loop := (fun n => for_loop n (update_column lut_sin round_integer t) m).

(** The four rows at either end of a strip of the source slot are blank. *)
Lemma outer_rows_zero (x r b : Z) :
  0 <= x < 24 -> 0 <= r < 4 \/ 140 <= r < 144 -> 0 <= b < 8 ->
  m (row_byte (src_slot t) x r b) = 0.
Proof.
  intros Hx Hr Hb. destruct cleanliness as [_ [A _]].
  apply A; try assumption; [change rows_per_strip with 144; lia|].
  unfold image_rows. change data.flag_height_tiles with 16.
  pose proof (displacement_range lut_sin round_integer (8 * x) t bounded nearest).
  lia.
Qed.

(** What the copy of column [n] does to an address, when the source slot
    still holds what it held before the loop. *)
Lemma update_step (n : nat) (a : Z) :
  (n < 24)%nat ->
  (forall a', in_slot (src_slot t) a' -> loop n a' = m a') ->
  (exists r b, 0 <= r < 144 /\ 0 <= b < 8
               /\ a = line t (Z.of_nat n) + 8 * r + b
               /\ loop (S n) a = m (row_byte (src_slot t) (Z.of_nat n) r b))
  \/ (~ written lut_sin round_integer t (Z.of_nat n) a /\ loop (S n) a = loop n a).
Proof.
  intros Hn J1. cbv beta. rewrite for_loop_S.
  destruct (written_dec t (Z.of_nat n) a) as [W | NW].
  - left. destruct (written_form _ _ _ W) as [r [b [Hr [Hb Ea]]]].
    exists r, b. repeat split; try lia.
    rewrite update_column_hit by exact W.
    replace (column_base (src_slot t) (Z.of_nat n) + (a - line t (Z.of_nat n)))
      with (row_byte (src_slot t) (Z.of_nat n) r b)
      by (rewrite row_byte_eq, column_base_eq; lia).
    apply J1. unfold in_slot. change slot_bytes with 27648.
    rewrite row_byte_eq, slot_base_eq. lia.
  - right. split; [exact NW|]. apply update_column_miss. exact NW.
Qed.

(** After the first [n] columns: the source slot and tile 0 read as before,
    the first and last rows of the destination strips are blank, and the
    rows in between hold the rows of the source strips, moved. *)
Lemma update_loop_on_clean (n : nat) :
  (n <= 24)%nat ->
  (forall a, in_slot (src_slot t) a -> loop n a = m a)
  /\ (forall a, 0 <= a < 64 -> loop n a = 0)
  /\ (forall x b, 0 <= x < 24 -> 0 <= b < 8 ->
        loop n (row_byte (dst_slot t) x 0 b) = 0
        /\ loop n (row_byte (dst_slot t) x 143 b) = 0)
  /\ (forall x j b, 0 <= x < Z.of_nat n -> 1 <= j <= 142 -> 0 <= b < 8 ->
        loop n (row_byte (dst_slot t) x j b)
        = m (row_byte (src_slot t) x (j - delta t x) b)).
Proof.
  induction n as [|n IH]; intros Hn.
  - destruct cleanliness as [_ [_ [E T0]]].
    split; [reflexivity|]. split; [|split].
    + intros a Ha. apply T0. rewrite slot_base_eq. lia.
    + intros x b Hx Hb. apply E; assumption.
    + intros x j b Hx. lia.
  - destruct (IH ltac:(lia)) as [J1 [J2 [J3 J4]]].
    pose proof (shifts_small lut_sin round_integer bounded smooth nearest t
                             (Z.of_nat n)) as Hd.
    pose proof (update_line_eq lut_sin round_integer t (Z.of_nat n)) as El.
    split; [|split; [|split]].
    + intros a Ha.
      destruct (update_step n a ltac:(lia) J1)
        as [[r [b [Hr [Hb [Ea Ev]]]]] | [_ Ev]]; rewrite Ev; [|apply J1, Ha].
      unfold in_slot in Ha. change slot_bytes with 27648 in Ha.
      rewrite slot_base_eq in Ha.
      destruct (slot_cases t) as [[Es Ed] | [Es Ed]]; rewrite Es, Ed in *.
      * assert (Z.of_nat n = 0 /\ r = 0) as [E0 E1] by lia.
        rewrite E0, E1 in *.
        replace a with (row_byte 0 23 143 b) by (rewrite row_byte_eq; lia).
        rewrite <- Es. rewrite !outer_rows_zero by lia. reflexivity.
      * assert (Z.of_nat n = 23 /\ r = 143) as [E0 E1] by lia.
        rewrite E0, E1 in *.
        replace a with (row_byte 1 0 0 b) by (rewrite row_byte_eq; lia).
        rewrite <- Es. rewrite !outer_rows_zero by lia. reflexivity.
    + intros a Ha.
      destruct (update_step n a ltac:(lia) J1)
        as [[r [b [Hr [Hb [Ea Ev]]]]] | [_ Ev]]; rewrite Ev; [|apply J2, Ha].
      apply outer_rows_zero; try lia.
      destruct (slot_cases t) as [[Es Ed] | [Es Ed]]; rewrite Ed in *; lia.
    + intros x b0 Hx Hb0. split.
      * destruct (update_step n (row_byte (dst_slot t) x 0 b0) ltac:(lia) J1)
          as [[r [b [Hr [Hb [Ea Ev]]]]] | [_ Ev]]; rewrite Ev;
          [|apply J3; assumption].
        apply outer_rows_zero; try lia. rewrite row_byte_eq in Ea. lia.
      * destruct (update_step n (row_byte (dst_slot t) x 143 b0) ltac:(lia) J1)
          as [[r [b [Hr [Hb [Ea Ev]]]]] | [_ Ev]]; rewrite Ev;
          [|apply J3; assumption].
        apply outer_rows_zero; try lia. rewrite row_byte_eq in Ea. lia.
    + intros x j b0 Hx Hj Hb0.
      destruct (update_step n (row_byte (dst_slot t) x j b0) ltac:(lia) J1)
        as [[r [b [Hr [Hb [Ea Ev]]]]] | [NW Ev]]; rewrite Ev.
      * rewrite row_byte_eq in Ea.
        assert (x = Z.of_nat n /\ r = j - delta t x /\ b = b0) as [E0 [E1 E2]].
        { assert (x = Z.of_nat n) by lia. subst x. lia. }
        rewrite <- E0, <- E1, E2. reflexivity.
      * apply J4; try assumption.
        assert (x <> Z.of_nat n); [|lia].
        intros ->. apply NW. unfold written. change strip_bytes with 1152.
        rewrite row_byte_eq. lia.
Qed.

End UpdateOnClean.

End CleanFacts.

Section CleanRun.

Variable lut_sin : Z -> Z.
Variable round_integer : Z -> Z.

Hypothesis bounded : table_bounded lut_sin = true.
Hypothesis smooth : table_smooth lut_sin = true.
Hypothesis nearest : rounds_to_nearest round_integer.

Local Abbreviation disp := (_displacement lut_sin round_integer).
Local Abbreviation delta := (d_disp lut_sin round_integer).
Local Abbreviation tline := (transfer_line lut_sin round_integer).

(** [update] keeps the tiles clean, one frame later. *)
Lemma update_tiles_clean (item : regular_bg_item) (t : Z) (m : tile_memory) :
  clean lut_sin round_integer item t m ->
  clean lut_sin round_integer item (int_add t 1)
        (update_tiles lut_sin round_integer t m).
Proof.
  intros C.
  destruct (update_loop_on_clean lut_sin round_integer bounded smooth nearest
              item t m C 24 (le_n _)) as [J1 [J2 [J3 J4]]].
  cbv beta in J1, J2, J3, J4.
  destruct (slot_next t) as [Sn Dn].
  unfold update_tiles. change (Z.to_nat data.flag_width_tiles) with 24%nat.
  split; [|split; [|split]].
  - intros x Hx. change data.flag_width_tiles with 24 in Hx.
    apply (update_tiles_moves_strip lut_sin round_integer bounded smooth nearest
             item t x m Hx).
    destruct C as [I _]. apply I. exact Hx.
  - intros x r b Hx Hr Hb Hni. rewrite Sn.
    change data.flag_width_tiles with 24 in Hx.
    change rows_per_strip with 144 in Hr. change sizeof_uint64 with 8 in Hb.
    pose proof (shifts_small lut_sin round_integer bounded smooth nearest t x) as Hd.
    assert (Hcases : r = 0 \/ r = 143 \/ 1 <= r <= 142) by lia.
    destruct Hcases as [-> | [-> | Hmid]].
    + apply J3; assumption.
    + apply J3; assumption.
    + rewrite J4 by (try assumption; lia).
      destruct C as [_ [A _]]. apply A.
      * exact Hx.
      * change rows_per_strip with 144.
        destruct (Z_le_dec 0 (r - delta t x)); [|exfalso].
        -- destruct (Z_lt_dec (r - delta t x) 144); [lia|exfalso].
           apply Hni. unfold image_rows. change data.flag_height_tiles with 16.
           pose proof (displacement_range lut_sin round_integer (8 * x) (int_add t 1)
                                          bounded nearest).
           pose proof (displacement_range lut_sin round_integer (8 * x) t
                                          bounded nearest).
           rewrite (displacement_next lut_sin round_integer bounded nearest) in *.
           lia.
        -- apply Hni. unfold image_rows. change data.flag_height_tiles with 16.
           pose proof (displacement_range lut_sin round_integer (8 * x) (int_add t 1)
                                          bounded nearest).
           pose proof (displacement_range lut_sin round_integer (8 * x) t
                                          bounded nearest).
           rewrite (displacement_next lut_sin round_integer bounded nearest) in *.
           lia.
      * exact Hb.
      * intros Hi. apply Hni. unfold image_rows in *.
        rewrite (displacement_next lut_sin round_integer bounded nearest). lia.
  - intros x b Hx Hb. rewrite Dn.
    change data.flag_width_tiles with 24 in Hx. change sizeof_uint64 with 8 in Hb.
    change (rows_per_strip - 1) with 143.
    assert (S : forall r, 0 <= r < 144 -> in_slot (src_slot t) (row_byte (src_slot t) x r b)).
    { intros r Hr. unfold in_slot. change slot_bytes with 27648.
      rewrite row_byte_eq, slot_base_eq. lia. }
    rewrite !J1 by (apply S; lia).
    rewrite !(outer_rows_zero lut_sin round_integer bounded nearest item t m C) by lia.
    split; reflexivity.
  - intros a Ha. rewrite slot_base_eq in Ha. apply J2. lia.
Qed.

(** On clean tiles, and within the allocated tiles, [update] does what the
    design document asks of it: the source slot reads as before, every strip
    lands whole, tile 0 stays blank, and no allocated byte outside the
    destination slot changes. *)
Lemma update_tiles_on_clean (item : regular_bg_item) (t : Z) (m : tile_memory) :
  clean lut_sin round_integer item t m ->
  source_slot_untouched m (update_tiles lut_sin round_integer t m) t
  /\ (forall x, 0 <= x < data.flag_width_tiles ->
        shifted_strip lut_sin round_integer 0 rows_per_strip m
                      (update_tiles lut_sin round_integer t m) t x)
  /\ (forall a, 0 <= a < slot_base 0 ->
        update_tiles lut_sin round_integer t m a = 0)
  /\ (forall a, 0 <= a < allocated_bytes -> ~ in_slot (dst_slot t) a ->
        update_tiles lut_sin round_integer t m a = m a).
Proof.
  intros C.
  destruct (update_loop_on_clean lut_sin round_integer bounded smooth nearest
              item t m C 24 (le_n _)) as [J1 [J2 [J3 J4]]].
  cbv beta in J1, J2, J3, J4.
  unfold update_tiles. change (Z.to_nat data.flag_width_tiles) with 24%nat.
  split; [exact J1|]. split; [|split].
  - intros x Hx r b Hr Hj Hb. change data.flag_width_tiles with 24 in Hx.
    change rows_per_strip with 144 in *. change sizeof_uint64 with 8 in Hb.
    pose proof (shifts_small lut_sin round_integer bounded smooth nearest t x) as Hd.
    assert (Hcases : r + delta t x = 0 \/ r + delta t x = 143
                     \/ 1 <= r + delta t x <= 142) by lia.
    destruct Hcases as [E | [E | Hmid]].
    + rewrite E, (proj1 (J3 x b Hx Hb)).
      rewrite (outer_rows_zero lut_sin round_integer bounded nearest item t m C)
        by lia.
      reflexivity.
    + rewrite E, (proj2 (J3 x b Hx Hb)).
      rewrite (outer_rows_zero lut_sin round_integer bounded nearest item t m C)
        by lia.
      reflexivity.
    + rewrite J4 by (try assumption; lia). do 2 f_equal. lia.
  - intros a Ha. rewrite slot_base_eq in Ha. apply J2. lia.
  - intros a Ha Hn. change allocated_bytes with 55360 in Ha.
    destruct (Z_lt_dec a 64) as [T0 | T0].
    + rewrite J2 by lia. symmetry.
      destruct C as [_ [_ [_ Z0]]]. apply Z0. rewrite slot_base_eq. lia.
    + apply J1. revert Hn. unfold in_slot. change slot_bytes with 27648.
      rewrite !slot_base_eq.
      destruct (slot_cases t) as [[-> ->] | [-> ->]]; lia.
Qed.

(** An address outside the places of all strips is not stored to by
    [_transfer]. *)
Lemma transfer_loop_miss (item : regular_bg_item) (t a : Z) (m : tile_memory)
    (n : nat) :
  (forall x, 0 <= x < Z.of_nat n ->
     ~ (tline (src_slot t) t x <= a < tline (src_slot t) t x + image_strip_bytes)) ->
  for_loop n (_transfer_column lut_sin round_integer item t) m a = m a.
Proof.
  induction n as [|n IH]; intros H; [reflexivity|].
  rewrite for_loop_S, _transfer_column_miss by (apply H; lia).
  apply IH. intros x Hx. apply H. lia.
Qed.

(** [_transfer] puts an image into tiles that are clean around the places of
    the strips, and leaves them clean. *)
Lemma transfer_tiles_clean (item : regular_bg_item) (t : Z) (m : tile_memory) :
  clean_around lut_sin round_integer t m -> clean_edges t m -> clean_tile0 m ->
  clean lut_sin round_integer item t
        (for_loop 24 (_transfer_column lut_sin round_integer item t) m).
Proof.
  intros A E T0.
  assert (F : forall a, ~ in_slot (src_slot t) a ->
                for_loop 24 (_transfer_column lut_sin round_integer item t) m a = m a).
  { intros a Ha.
    apply (transfer_loop_frame lut_sin round_integer item t a m 24 bounded nearest
             (le_n _) Ha). }
  split; [|split; [|split]].
  - intros x Hx. change data.flag_width_tiles with 24 in Hx.
    apply (transfer_loop_loaded lut_sin round_integer item t m 24 bounded nearest
             (le_n _)). lia.
  - intros x r b Hx Hr Hb Hni. rewrite transfer_loop_miss.
    + apply A; assumption.
    + intros x' Hx'. change image_strip_bytes with 1024.
      change data.flag_width_tiles with 24 in Hx.
      change rows_per_strip with 144 in Hr. change sizeof_uint64 with 8 in Hb.
      rewrite transfer_line_eq, row_byte_eq.
      pose proof (displacement_range lut_sin round_integer (8 * x') t bounded nearest).
      destruct (Z.eq_dec x' x) as [-> | Hne]; [|lia].
      intros W. apply Hni. unfold image_rows. change data.flag_height_tiles with 16.
      lia.
  - intros x b Hx Hb. change (rows_per_strip - 1) with 143.
    change data.flag_width_tiles with 24 in Hx. change sizeof_uint64 with 8 in Hb.
    assert (S : forall r, 0 <= r < 144 ->
                  ~ in_slot (src_slot t) (row_byte (dst_slot t) x r b)).
    { intros r Hr. unfold in_slot. change slot_bytes with 27648.
      rewrite row_byte_eq, slot_base_eq.
      destruct (slot_cases t) as [[-> ->] | [-> ->]]; lia. }
    rewrite !F by (apply S; lia). apply E; assumption.
  - intros a Ha. rewrite F; [apply T0, Ha|].
    unfold in_slot. rewrite slot_base_eq in *.
    destruct (slot_cases t) as [[-> _] | [-> _]]; lia.
Qed.

Lemma blank_tiles_clean_parts (t : Z) (m : tile_memory) :
  blank_tiles m ->
  clean_around lut_sin round_integer t m /\ clean_edges t m /\ clean_tile0 m.
Proof.
  unfold blank_tiles. change allocated_bytes with 55360. intros B.
  split; [|split].
  - intros x r b Hx Hr Hb _. apply B.
    change data.flag_width_tiles with 24 in Hx.
    change rows_per_strip with 144 in Hr. change sizeof_uint64 with 8 in Hb.
    rewrite row_byte_eq. destruct (slot_cases t) as [[-> _] | [-> _]]; lia.
  - intros x b Hx Hb. change (rows_per_strip - 1) with 143.
    change data.flag_width_tiles with 24 in Hx. change sizeof_uint64 with 8 in Hb.
    split; apply B; rewrite row_byte_eq;
      destruct (slot_cases t) as [[_ ->] | [_ ->]]; lia.
  - intros a Ha. apply B. rewrite slot_base_eq in Ha. lia.
Qed.

Lemma create_clean (item : regular_bg_item) (vram : tile_memory) :
  blank_tiles vram ->
  clean_state lut_sin round_integer (create lut_sin round_integer item vram).
Proof.
  intros B. destruct (blank_tiles_clean_parts 0 vram B) as [A [E T0]].
  unfold clean_state. cbn [create _transfer _bg _bg_item _current_frame tiles_vram].
  change (Z.to_nat data.flag_width_tiles) with 24%nat.
  apply transfer_tiles_clean; assumption.
Qed.

Lemma perform_clean (self : flags_bg) (c : call) :
  clean_state lut_sin round_integer self ->
  clean_state lut_sin round_integer (perform lut_sin round_integer self c).
Proof.
  unfold clean_state. intros C. destruct c as [|item]; cbn [perform].
  - cbn [update _bg _bg_item _current_frame tiles_vram].
    apply update_tiles_clean. exact C.
  - cbn [set_bg_item _transfer _bg _bg_item _current_frame tiles_vram].
    change (Z.to_nat data.flag_width_tiles) with 24%nat.
    destruct C as [_ [A [E T0]]]. apply transfer_tiles_clean; assumption.
Qed.

Lemma run_clean (calls : list call) :
  forall self, clean_state lut_sin round_integer self ->
               clean_state lut_sin round_integer (run lut_sin round_integer self calls).
Proof.
  unfold run. induction calls as [|c calls IH]; intros self C; [exact C|].
  cbn [fold_left]. apply IH, perform_clean, C.
Qed.

End CleanRun.

(** ** [_transfer] and [update], store by store *)

Section Stores.

Variable lut_sin : Z -> Z.
Variable round_integer : Z -> Z.

Local Abbreviation disp := (_displacement lut_sin round_integer).
Local Abbreviation delta := (d_disp lut_sin round_integer).
Local Abbreviation line := (update_line lut_sin round_integer).
Local Abbreviation tline := (transfer_line lut_sin round_integer).

(** An address is in the place of the strip of some column, or of none. *)
Lemma transfer_place_dec (t a : Z) :
  table_bounded lut_sin = true -> rounds_to_nearest round_integer ->
  (exists x, 0 <= x < 24
             /\ tline (src_slot t) t x <= a < tline (src_slot t) t x + image_strip_bytes)
  \/ (forall x, 0 <= x < 24 ->
        ~ (tline (src_slot t) t x <= a < tline (src_slot t) t x + image_strip_bytes)).
Proof.
  intros Hb Hr. change image_strip_bytes with 1024.
  set (o := a - slot_base (src_slot t)).
  pose proof (Z.div_mod o 1152 ltac:(lia)) as E.
  pose proof (Z.mod_pos_bound o 1152 ltac:(lia)) as B.
  assert (Far : forall x, 0 <= x < 24 -> x <> o / 1152 ->
                  ~ (tline (src_slot t) t x <= a < tline (src_slot t) t x + 1024)).
  { intros x Hx Hne. rewrite transfer_line_eq.
    pose proof (displacement_range lut_sin round_integer (8 * x) t Hb Hr).
    unfold o in *. rewrite slot_base_eq in *. lia. }
  destruct (Z_le_dec 0 (o / 1152)) as [L|L];
    [|right; intros x Hx; apply Far; lia].
  destruct (Z_lt_dec (o / 1152) 24) as [U|U];
    [|right; intros x Hx; apply Far; lia].
  destruct (Z_le_dec (tline (src_slot t) t (o / 1152)) a) as [W1|W1];
    [|right; intros x Hx; destruct (Z.eq_dec x (o / 1152)) as [-> | Hne];
      [lia | apply Far; assumption]].
  destruct (Z_lt_dec a (tline (src_slot t) t (o / 1152) + 1024)) as [W2|W2];
    [|right; intros x Hx; destruct (Z.eq_dec x (o / 1152)) as [-> | Hne];
      [lia | apply Far; assumption]].
  left. exists (o / 1152). lia.
Qed.

(** X9. [_transfer] stores only inside the slot of the frame's parity, and there
    only in rows 4 to 139 of the column strips: tile 0, the other slot and
    the four outermost rows at either end of every strip keep their bytes. *)
Theorem _transfer_stores_inside_strips (self : flags_bg) (a : Z) :
  table_bounded lut_sin = true -> rounds_to_nearest round_integer ->
  (forall x r b, 0 <= x < data.flag_width_tiles -> 4 <= r < rows_per_strip - 4 ->
                 0 <= b < sizeof_uint64 ->
                 a <> row_byte (src_slot (_current_frame self)) x r b) ->
  tiles_vram (_bg (_transfer lut_sin round_integer self)) a = tiles_vram (_bg self) a.
Proof.
  intros Hb Hr Ha. cbn [_transfer _bg tiles_vram].
  change (Z.to_nat data.flag_width_tiles) with 24%nat.
  change data.flag_width_tiles with 24 in Ha.
  change (rows_per_strip - 4) with 140 in Ha. change sizeof_uint64 with 8 in Ha.
  apply (transfer_loop_miss lut_sin round_integer).
  intros x Hx W. change image_strip_bytes with 1024 in W.
  rewrite transfer_line_eq in W.
  pose proof (displacement_range lut_sin round_integer (8 * x)
                                 (_current_frame self) Hb Hr) as R.
  set (o := a - (64 + 27648 * src_slot (_current_frame self) + 1152 * x)) in *.
  pose proof (Z.div_mod o 8 ltac:(lia)) as E.
  pose proof (Z.mod_pos_bound o 8 ltac:(lia)) as B.
  apply (Ha x (o / 8) (o mod 8)); [lia | unfold o in *; lia | lia |].
  rewrite row_byte_eq. unfold o in *. lia.
Qed.

Lemma set_bg_item_item (item : regular_bg_item) (self : flags_bg) :
  _bg_item (set_bg_item lut_sin round_integer item self) = item.
Proof. reflexivity. Qed.

Lemma set_bg_item_palette (item : regular_bg_item) (self : flags_bg) :
  palette_colors (_bg (set_bg_item lut_sin round_integer item self))
  = palette_item item.
Proof. reflexivity. Qed.

(** X10. Setting an image and then another leaves the tiles, the palette, the
    current image and the frame counter as setting the second one alone. *)
Theorem set_bg_item_last_wins (self : flags_bg) (i j : regular_bg_item) (a : Z) :
  table_bounded lut_sin = true -> rounds_to_nearest round_integer ->
  tiles_vram (_bg (set_bg_item lut_sin round_integer j
                     (set_bg_item lut_sin round_integer i self))) a
  = tiles_vram (_bg (set_bg_item lut_sin round_integer j self)) a
  /\ palette_colors (_bg (set_bg_item lut_sin round_integer j
                            (set_bg_item lut_sin round_integer i self)))
     = palette_colors (_bg (set_bg_item lut_sin round_integer j self))
  /\ bg_item (set_bg_item lut_sin round_integer j
                (set_bg_item lut_sin round_integer i self))
     = bg_item (set_bg_item lut_sin round_integer j self)
  /\ _current_frame (set_bg_item lut_sin round_integer j
                       (set_bg_item lut_sin round_integer i self))
     = _current_frame (set_bg_item lut_sin round_integer j self).
Proof.
  intros Hb Hr. split; [|split; [|split]].
  2: rewrite !set_bg_item_palette; reflexivity.
  2: unfold bg_item; rewrite !set_bg_item_item; reflexivity.
  2: rewrite !set_bg_item_frame; reflexivity.
  cbn [set_bg_item _transfer _bg _bg_item _current_frame tiles_vram].
  change (Z.to_nat data.flag_width_tiles) with 24%nat.
  set (t := _current_frame self). set (m := tiles_vram (_bg self)).
  destruct (transfer_place_dec t a Hb Hr) as [[x [Hx W]] | Hmiss].
  - pose proof (transfer_loop_loaded lut_sin round_integer j t m 24 Hb Hr (le_n _)
                  x ltac:(lia) (a - tline (src_slot t) t x) ltac:(lia)) as L1.
    pose proof (transfer_loop_loaded lut_sin round_integer j t
                  (for_loop 24 (_transfer_column lut_sin round_integer i t) m)
                  24 Hb Hr (le_n _)
                  x ltac:(lia) (a - tline (src_slot t) t x) ltac:(lia)) as L2.
    replace (tline (src_slot t) t x + (a - tline (src_slot t) t x)) with a in L1, L2
      by lia.
    rewrite L1, L2. reflexivity.
  - rewrite !(transfer_loop_miss lut_sin round_integer) by exact Hmiss.
    reflexivity.
Qed.

(** X6. Every byte that the copy of a column of [update] stores is read from the
    strip of that column in the source slot, inside the allocated tiles, and
    is stored no farther than one row before slot 0 (in tile 0) or one row
    after slot 1 (the 8 bytes that follow the allocated tiles). *)
Theorem update_column_reads_and_stores (t x a : Z) (vram : tile_memory) :
  table_bounded lut_sin = true -> table_smooth lut_sin = true ->
  rounds_to_nearest round_integer ->
  0 <= x < data.flag_width_tiles ->
  written lut_sin round_integer t x a ->
  update_column lut_sin round_integer t x vram a
  = vram (column_base (src_slot t) x + (a - line t x))
  /\ column_base (src_slot t) x <= column_base (src_slot t) x + (a - line t x)
     < column_base (src_slot t) x + strip_bytes
  /\ in_slot (src_slot t) (column_base (src_slot t) x + (a - line t x))
  /\ 0 <= column_base (src_slot t) x + (a - line t x) < allocated_bytes
  /\ slot_base 0 - sizeof_uint64 <= a < allocated_bytes + sizeof_uint64.
Proof.
  intros Hb Hs Hr Hx W. split; [apply update_column_hit; exact W|].
  pose proof (d_disp_range lut_sin round_integer t x Hb Hs Hr) as Hd.
  revert W. unfold written, in_slot. change strip_bytes with 1152.
  change slot_bytes with 27648. change allocated_bytes with 55360.
  change sizeof_uint64 with 8. change data.flag_width_tiles with 24 in Hx.
  rewrite update_line_eq, column_base_eq, !slot_base_eq.
  destruct (slot_cases t) as [[-> ->] | [-> ->]]; lia.
Qed.

End Stores.

(** ** Sequences of calls *)

Section Runs.

Variable lut_sin : Z -> Z.
Variable round_integer : Z -> Z.

(** X1. Whatever the tiles hold when the object is created, and whatever calls
    follow, the strips of the current image are in the slot of the frame's
    parity, each [_displacement (8 * x) current_frame] rows below the second
    tile of its column strip: [update] derives each frame from the one
    before without ever losing the image, also across the wrap-around of the
    frame counter. *)
Theorem run_keeps_image_in_place (item : regular_bg_item) (vram : tile_memory)
    (calls : list call) :
  table_bounded lut_sin = true -> table_smooth lut_sin = true ->
  rounds_to_nearest round_integer ->
  image_in_place lut_sin round_integer
    (run lut_sin round_integer (create lut_sin round_integer item vram) calls).
Proof.
  intros Hb Hs Hr.
  apply (run_image_in_place lut_sin round_integer Hb Hs Hr).
  apply (_transfer_image_in_place lut_sin round_integer Hb Hr).
Qed.

(** X2. When the allocated tiles are blank at creation, then after any sequence
    of calls the slot of the frame's parity holds the current image in its
    place and zero bytes in every other row, the first and last row of every
    strip of the other slot are zero, and tile 0 is zero. *)
Theorem run_keeps_tiles_clean (item : regular_bg_item) (vram : tile_memory)
    (calls : list call) :
  table_bounded lut_sin = true -> table_smooth lut_sin = true ->
  rounds_to_nearest round_integer ->
  blank_tiles vram ->
  clean_state lut_sin round_integer
    (run lut_sin round_integer (create lut_sin round_integer item vram) calls).
Proof.
  intros Hb Hs Hr B.
  apply (run_clean lut_sin round_integer Hb Hs Hr).
  apply (create_clean lut_sin round_integer Hb Hr). exact B.
Qed.

(** X3. When the allocated tiles are blank at creation, every later [update]
    leaves each byte of its source slot as it was, moves every strip as a
    whole (all 144 rows that stay within the strip) by the row shift of its
    column, leaves tile 0 blank, and changes no byte of the allocated tiles
    outside its destination slot.  This is about the allocated tiles only:
    the 8 bytes that follow them are not covered. *)
Theorem update_after_blank_start (item : regular_bg_item) (vram : tile_memory)
    (calls : list call) :
  table_bounded lut_sin = true -> table_smooth lut_sin = true ->
  rounds_to_nearest round_integer ->
  blank_tiles vram ->
  let self := run lut_sin round_integer
                  (create lut_sin round_integer item vram) calls in
  source_slot_untouched (tiles_vram (_bg self))
    (tiles_vram (_bg (update lut_sin round_integer self))) (_current_frame self)
  /\ (forall x, 0 <= x < data.flag_width_tiles ->
        shifted_strip lut_sin round_integer 0 rows_per_strip
          (tiles_vram (_bg self))
          (tiles_vram (_bg (update lut_sin round_integer self)))
          (_current_frame self) x)
  /\ (forall a, 0 <= a < slot_base 0 ->
        tiles_vram (_bg (update lut_sin round_integer self)) a = 0)
  /\ (forall a, 0 <= a < allocated_bytes ->
        ~ in_slot (dst_slot (_current_frame self)) a ->
        tiles_vram (_bg (update lut_sin round_integer self)) a
        = tiles_vram (_bg self) a).
Proof.
  intros Hb Hs Hr B self.
  assert (C : clean_state lut_sin round_integer self).
  { apply (run_clean lut_sin round_integer Hb Hs Hr).
    apply (create_clean lut_sin round_integer Hb Hr). exact B. }
  exact (update_tiles_on_clean lut_sin round_integer Hb Hs Hr
           (_bg_item self) (_current_frame self) (tiles_vram (_bg self)) C).
Qed.

Lemma run_item_and_palette (calls : list call) :
  forall self,
    palette_colors (_bg self) = palette_item (_bg_item self) ->
    bg_item (run lut_sin round_integer self calls) = last_item calls (_bg_item self)
    /\ palette_colors (_bg (run lut_sin round_integer self calls))
       = palette_item (last_item calls (_bg_item self)).
Proof.
  unfold run, last_item.
  induction calls as [|c calls IH]; intros self P; [split; [reflexivity | exact P]|].
  cbn [fold_left]. destruct c as [|item]; cbn [perform].
  - apply (IH (update lut_sin round_integer self)). exact P.
  - apply (IH (set_bg_item lut_sin round_integer item self)). reflexivity.
Qed.

(** X11. After any sequence of calls the current image is the one of the last
    [set_bg_item] (the one given to [create] if there was none), and the
    palette holds its colours. *)
Theorem run_tracks_image (item : regular_bg_item) (vram : tile_memory)
    (calls : list call) :
  bg_item (run lut_sin round_integer (create lut_sin round_integer item vram) calls)
  = last_item calls item
  /\ palette_colors
       (_bg (run lut_sin round_integer (create lut_sin round_integer item vram) calls))
     = palette_item (last_item calls item).
Proof.
  apply (run_item_and_palette calls (create lut_sin round_integer item vram)).
  reflexivity.
Qed.

(** ** [main] *)

Variable item_eqb : regular_bg_item -> regular_bg_item -> bool.
Variable br_flag : regular_bg_item.
Variable us_flag : regular_bg_item.

Local Abbreviation turn :=
  (fun flags a_pressed =>
     main_iteration lut_sin round_integer item_eqb br_flag us_flag a_pressed flags).

Lemma main_turns_as_calls (keys : list bool) :
  item_eqb br_flag br_flag = true -> item_eqb us_flag br_flag = false ->
  forall (shows_br : bool) (self : flags_bg),
    _bg_item self = (if shows_br then br_flag else us_flag) ->
    fold_left turn keys self
    = run lut_sin round_integer self (main_calls br_flag us_flag shows_br keys).
Proof.
  intros Ebr Eus. unfold run.
  induction keys as [|k keys IH]; intros shows_br self Hs; [reflexivity|].
  cbn [fold_left]. destruct k; cbn [main_calls fold_left perform].
  - assert (Hq : item_eqb (bg_item self) br_flag = shows_br)
      by (unfold bg_item; rewrite Hs; destruct shows_br; assumption).
    unfold main_iteration at 2. rewrite Hq.
    rewrite <- (IH (negb shows_br)); destruct shows_br; reflexivity.
  - unfold main_iteration at 2. apply IH. exact Hs.
Qed.

Lemma main_calls_updates (shows_br : bool) (keys : list bool) :
  count_updates (main_calls br_flag us_flag shows_br keys) = length keys.
Proof.
  unfold count_updates. revert shows_br.
  induction keys as [|k keys IH]; intros shows_br; [reflexivity|].
  destruct k; cbn [main_calls filter is_update length]; rewrite IH; reflexivity.
Qed.

Lemma main_calls_last_item (keys : list bool) :
  forall shows_br : bool,
    last_item (main_calls br_flag us_flag shows_br keys)
              (if shows_br then br_flag else us_flag)
    = if Bool.eqb shows_br (Nat.even (presses keys)) then br_flag else us_flag.
Proof.
  unfold last_item, presses.
  induction keys as [|k keys IH]; intros shows_br.
  - destruct shows_br; reflexivity.
  - destruct k; cbn [main_calls fold_left filter length].
    + specialize (IH (negb shows_br)).
      replace (if negb shows_br then br_flag else us_flag)
        with (if shows_br then us_flag else br_flag) in IH
        by (destruct shows_br; reflexivity).
      rewrite IH. rewrite Nat.even_succ, <- Nat.negb_even.
      destruct shows_br, (Nat.even (length (filter (fun k => k) keys))); reflexivity.
    + apply IH.
Qed.

(** X16. [main], turn by turn: when [operator==] tells the two flags apart, the
    object after the turns that consume [keys] is the one reached by the
    calls the loop makes; its frame counter is the number of turns (while
    that is an [int]); it shows the Brazilian flag after an even number of
    presses of A and the other flag after an odd number; and the palette is
    the one of the flag shown. *)
Theorem main_counts_and_toggles (vram : tile_memory) (keys : list bool) :
  item_eqb br_flag br_flag = true -> item_eqb us_flag br_flag = false ->
  Z.of_nat (length keys) <= max_signed ->
  main lut_sin round_integer item_eqb br_flag us_flag vram keys
  = run lut_sin round_integer (create lut_sin round_integer br_flag vram)
        (main_calls br_flag us_flag true keys)
  /\ _current_frame (main lut_sin round_integer item_eqb br_flag us_flag vram keys)
     = Z.of_nat (length keys)
  /\ bg_item (main lut_sin round_integer item_eqb br_flag us_flag vram keys)
     = (if Nat.even (presses keys) then br_flag else us_flag)
  /\ palette_colors (_bg (main lut_sin round_integer item_eqb br_flag us_flag vram keys))
     = palette_item (if Nat.even (presses keys) then br_flag else us_flag).
Proof.
  intros Ebr Eus Hn.
  assert (M : main lut_sin round_integer item_eqb br_flag us_flag vram keys
              = run lut_sin round_integer (create lut_sin round_integer br_flag vram)
                    (main_calls br_flag us_flag true keys))
    by (apply (main_turns_as_calls keys Ebr Eus true); reflexivity).
  split; [exact M|]. rewrite M.
  destruct (run_item_and_palette (main_calls br_flag us_flag true keys)
              (create lut_sin round_integer br_flag vram) eq_refl) as [I P].
  assert (L : last_item (main_calls br_flag us_flag true keys) br_flag
              = if Nat.even (presses keys) then br_flag else us_flag)
    by (rewrite (main_calls_last_item keys true);
        destruct (Nat.even (presses keys)); reflexivity).
  change (_bg_item (create lut_sin round_integer br_flag vram)) with br_flag in I, P.
  split; [|split].
  - rewrite run_frame, main_calls_updates. apply count_up. exact Hn.
  - rewrite I, L. reflexivity.
  - rewrite P, L. reflexivity.
Qed.

Lemma main_iteration_as_calls (a_pressed : bool) (flags : flags_bg) :
  exists calls,
    main_iteration lut_sin round_integer item_eqb br_flag us_flag a_pressed flags
    = run lut_sin round_integer flags calls.
Proof.
  unfold main_iteration. destruct a_pressed.
  - destruct (item_eqb (bg_item flags) br_flag).
    + exists [CallSetBgItem us_flag; CallUpdate]. reflexivity.
    + exists [CallSetBgItem br_flag; CallUpdate]. reflexivity.
  - exists [CallUpdate]. reflexivity.
Qed.

(** X17. [main] keeps the image on the wave: after every turn the strips of the
    flag shown are in the slot of the frame's parity, in their places of the
    current frame, whatever [operator==] answers and whatever the tiles held
    at the start; and when the tiles were blank at the start, the rest of
    that slot and tile 0 are still blank. *)
Theorem main_keeps_image_in_place (vram : tile_memory) (keys : list bool) :
  table_bounded lut_sin = true -> table_smooth lut_sin = true ->
  rounds_to_nearest round_integer ->
  image_in_place lut_sin round_integer
    (main lut_sin round_integer item_eqb br_flag us_flag vram keys)
  /\ (blank_tiles vram ->
      clean_state lut_sin round_integer
        (main lut_sin round_integer item_eqb br_flag us_flag vram keys)).
Proof.
  intros Hb Hs Hr. unfold main.
  assert (G : forall self,
             (image_in_place lut_sin round_integer self ->
              image_in_place lut_sin round_integer (fold_left turn keys self))
             /\ (clean_state lut_sin round_integer self ->
                 clean_state lut_sin round_integer (fold_left turn keys self))).
  { induction keys as [|k keys' IH]; intros self; [split; auto|].
    cbn [fold_left]. destruct (main_iteration_as_calls k self) as [calls E].
    cbv beta. rewrite E. split; intros H.
    - apply (proj1 (IH _)).
      apply (run_image_in_place lut_sin round_integer Hb Hs Hr). exact H.
    - apply (proj2 (IH _)).
      apply (run_clean lut_sin round_integer Hb Hs Hr). exact H. }
  split.
  - apply (proj1 (G _)).
    apply (_transfer_image_in_place lut_sin round_integer Hb Hr).
  - intros B. apply (proj2 (G _)).
    apply (create_clean lut_sin round_integer Hb Hr). exact B.
Qed.

End Runs.

(** ** Two slots, two frames *)

Lemma iter_int_add_congr (n : nat) (t : Z) :
  exists k, Nat.iter n (fun f => int_add f 1) t = t + Z.of_nat n + modulus * k.
Proof.
  induction n as [|n [k IH]].
  - exists 0. simpl. lia.
  - rewrite Nat.iter_succ, IH. unfold int_add.
    destruct (wrap32_congr (t + Z.of_nat n + modulus * k + 1)) as [k' ->].
    exists (k + k'). unfold modulus. change (2 ^ 32) with 4294967296. lia.
Qed.

Lemma wave_angle_congr (x t k : Z) : wave_angle x (t + modulus * k) = wave_angle x t.
Proof.
  unfold wave_angle. change data.wave_horizontal_multiplier with 16. unfold modulus.
  replace (16 * (x - (t + 2 ^ 32 * k)))
    with (16 * (x - t) + (- 33554432 * k) * 2048) by lia.
  apply Z.mod_add. lia.
Qed.

Lemma src_slot_congr (t k : Z) : src_slot (t + 2 * k) = src_slot t.
Proof.
  unfold src_slot. rewrite !land_1_mod.
  replace (t + 2 * k) with (t + k * 2) by lia. apply Z.mod_add. lia.
Qed.

Section TwoFrames.

Variable lut_sin : Z -> Z.
Variable round_integer : Z -> Z.

Local Abbreviation disp := (_displacement lut_sin round_integer).
Local Abbreviation delta := (d_disp lut_sin round_integer).
Local Abbreviation line := (update_line lut_sin round_integer).
Local Abbreviation tline := (transfer_line lut_sin round_integer).

Lemma updates_keep_item (n : nat) :
  forall self,
    _bg_item (run lut_sin round_integer self (repeat CallUpdate n)) = _bg_item self.
Proof.
  unfold run. induction n as [|n IH]; intros self; [reflexivity|].
  cbn [repeat fold_left perform]. rewrite IH. reflexivity.
Qed.

(** X4. After an [update] both slots hold the current image: the source slot
    still at its place of the frame before the call, the destination slot
    at its place of the frame after.  In particular slot 0, the one the map
    of [create] names, holds the image of the even frame throughout. *)
Theorem update_holds_two_frames (item : regular_bg_item) (vram : tile_memory)
    (calls : list call) (x : Z) :
  table_bounded lut_sin = true -> table_smooth lut_sin = true ->
  rounds_to_nearest round_integer ->
  0 <= x < data.flag_width_tiles ->
  let self := run lut_sin round_integer
                  (create lut_sin round_integer item vram) calls in
  strip_loaded lut_sin round_integer
    (tiles_vram (_bg (update lut_sin round_integer self)))
    (src_slot (_current_frame self)) (_current_frame self) (_bg_item self) x
  /\ strip_loaded lut_sin round_integer
       (tiles_vram (_bg (update lut_sin round_integer self)))
       (dst_slot (_current_frame self)) (int_add (_current_frame self) 1)
       (_bg_item self) x.
Proof.
  intros Hb Hs Hr Hx self.
  assert (I : image_in_place lut_sin round_integer self).
  { apply (run_image_in_place lut_sin round_integer Hb Hs Hr).
    apply (_transfer_image_in_place lut_sin round_integer Hb Hr). }
  split.
  - intros k Hk. rewrite <- (I x Hx k Hk).
    cbn [update _bg tiles_vram].
    apply (update_tiles_frame lut_sin round_integer (_current_frame self)
             (fun x' => d_disp_range lut_sin round_integer _ x' Hb Hs Hr)).
    change image_strip_bytes with 1024 in Hk.
    change data.flag_width_tiles with 24 in Hx. change slot_bytes with 27648.
    rewrite transfer_line_eq, slot_base_eq.
    pose proof (displacement_range lut_sin round_integer (8 * x)
                                   (_current_frame self) Hb Hr).
    destruct (slot_cases (_current_frame self)) as [[-> ->] | [-> ->]]; lia.
  - pose proof (update_image_in_place lut_sin round_integer Hb Hs Hr self I x Hx) as U.
    cbn [update _bg _bg_item _current_frame tiles_vram] in U.
    rewrite (proj1 (slot_next (_current_frame self))) in U. exact U.
Qed.

(** X5. After 128 more updates the frame has the same parity, every strip has
    the same place, and the bytes of the image are back at the very same
    addresses, also when the frame counter wraps on the way. *)
Theorem update_128_times_returns (item : regular_bg_item) (vram : tile_memory)
    (calls : list call) (x k : Z) :
  table_bounded lut_sin = true -> table_smooth lut_sin = true ->
  rounds_to_nearest round_integer ->
  0 <= x < data.flag_width_tiles -> 0 <= k < image_strip_bytes ->
  let self := run lut_sin round_integer
                  (create lut_sin round_integer item vram) calls in
  let later := run lut_sin round_integer self (repeat CallUpdate 128) in
  src_slot (_current_frame later) = src_slot (_current_frame self)
  /\ tline (src_slot (_current_frame later)) (_current_frame later) x
     = tline (src_slot (_current_frame self)) (_current_frame self) x
  /\ tiles_vram (_bg later) (tline (src_slot (_current_frame self))
                                   (_current_frame self) x + k)
     = tiles_vram (_bg self) (tline (src_slot (_current_frame self))
                                    (_current_frame self) x + k).
Proof.
  intros Hb Hs Hr Hx Hk self later.
  assert (I : image_in_place lut_sin round_integer self).
  { apply (run_image_in_place lut_sin round_integer Hb Hs Hr).
    apply (_transfer_image_in_place lut_sin round_integer Hb Hr). }
  assert (I' : image_in_place lut_sin round_integer later)
    by (apply (run_image_in_place lut_sin round_integer Hb Hs Hr); exact I).
  assert (F : exists q, _current_frame later = _current_frame self + 128 + modulus * q).
  { unfold later. rewrite run_frame, count_updates_repeat.
    destruct (iter_int_add_congr 128 (_current_frame self)) as [q E].
    exists q. rewrite E. reflexivity. }
  destruct F as [q F].
  assert (P : src_slot (_current_frame later) = src_slot (_current_frame self)).
  { rewrite F. unfold modulus.
    replace (_current_frame self + 128 + 2 ^ 32 * q)
      with (_current_frame self + 2 * (64 + 2147483648 * q)) by lia.
    apply src_slot_congr. }
  assert (T : tline (src_slot (_current_frame later)) (_current_frame later) x
              = tline (src_slot (_current_frame self)) (_current_frame self) x).
  { rewrite P. unfold transfer_line. f_equal.
    apply displacement_same_angle.
    rewrite F, wave_angle_congr. apply wave_angle_period. }
  split; [exact P|]. split; [exact T|].
  rewrite (I x Hx k Hk). rewrite <- T. rewrite (I' x Hx k Hk).
  unfold later. rewrite updates_keep_item. reflexivity.
Qed.

(** X7. When slot 1 is the destination and the last column moves down by one row,
    the last row of its copy is stored in the 8 bytes that follow the
    allocated tiles; what is stored there is the last row of the last strip
    of slot 0 as the copy finds it (the first row of the slot, when column 0
    moved up in the same update). *)
Theorem update_stores_past_allocation (t b : Z) (vram : tile_memory) :
  table_bounded lut_sin = true -> table_smooth lut_sin = true ->
  rounds_to_nearest round_integer ->
  src_slot t = 0 -> delta t 23 = 1 -> 0 <= b < sizeof_uint64 ->
  written lut_sin round_integer t 23 (allocated_bytes + b)
  /\ update_tiles lut_sin round_integer t vram (allocated_bytes + b)
     = vram (if delta t 0 =? - 1 then row_byte 0 0 0 b else row_byte 0 23 143 b).
Proof.
  intros Hb Hs Hr Es D23 Hbb. change sizeof_uint64 with 8 in Hbb.
  change allocated_bytes with 55360.
  assert (Ed : dst_slot t = 1)
    by (destruct (slot_cases t) as [[_ E] | [E _]]; [exact E | lia]).
  assert (W : written lut_sin round_integer t 23 (55360 + b)).
  { unfold written. change strip_bytes with 1152. rewrite update_line_eq, Ed, D23. lia. }
  split; [exact W|].
  unfold update_tiles. change (Z.to_nat data.flag_width_tiles) with 24%nat.
  rewrite for_loop_S. change (Z.of_nat 23) with 23.
  rewrite update_column_hit by exact W.
  replace (column_base (src_slot t) 23 + (55360 + b - line t 23))
    with (27704 + b) by (rewrite column_base_eq, update_line_eq, Es, Ed, D23; lia).
  assert (Hd : forall x', - 1 <= delta t x' <= 1)
    by (intros x'; apply d_disp_range; assumption).
  destruct (Z.eqb_spec (delta t 0) (- 1)) as [D0 | D0].
  - rewrite (update_loop_last_writer lut_sin round_integer t (27704 + b) vram 23 0).
    + f_equal. rewrite column_base_eq, update_line_eq, row_byte_eq, Es, Ed, D0. lia.
    + lia.
    + unfold written. change strip_bytes with 1152. rewrite update_line_eq, Ed, D0. lia.
    + intros x' Hx'. unfold written. change strip_bytes with 1152.
      rewrite update_line_eq, Ed. pose proof (Hd x'). lia.
    + intros x' Hx'. lia.
  - rewrite update_loop_frame.
    + rewrite row_byte_eq. f_equal.
    + intros x' Hx'. unfold written. change strip_bytes with 1152.
      rewrite update_line_eq, Ed. pose proof (Hd x').
      destruct (Z.eq_dec x' 0) as [-> | Hne]; lia.
Qed.

End TwoFrames.

(** X8. The tiles that [create] allocates are tile 0 followed by the two slots
    that [update] and [_transfer] address, with nothing between or after
    them; and the strips of a slot, row by row and byte by byte, are the
    bytes of the slot, each once. *)
Theorem allocation_layout (a : Z) :
  (0 <= a < allocated_bytes <-> (0 <= a < slot_base 0 \/ in_slot 0 a \/ in_slot 1 a))
  /\ ~ (in_slot 0 a /\ in_slot 1 a)
  /\ slot_base 0 = 2 * sizeof_tile
  /\ slot_base 1 + slot_bytes = allocated_bytes
  /\ (forall s, in_slot s a <->
                exists x r b, 0 <= x < data.flag_width_tiles /\ 0 <= r < rows_per_strip
                              /\ 0 <= b < sizeof_uint64 /\ a = row_byte s x r b)
  /\ (forall s x r b x' r' b',
        0 <= r < rows_per_strip -> 0 <= b < sizeof_uint64 ->
        0 <= r' < rows_per_strip -> 0 <= b' < sizeof_uint64 ->
        row_byte s x r b = row_byte s x' r' b' -> x = x' /\ r = r' /\ b = b').
Proof.
  unfold in_slot. change allocated_bytes with 55360. change slot_bytes with 27648.
  change sizeof_tile with 32. change data.flag_width_tiles with 24.
  change rows_per_strip with 144. change sizeof_uint64 with 8.
  rewrite !slot_base_eq.
  split; [lia|]. split; [lia|]. split; [lia|]. split; [lia|]. split.
  - intros s. rewrite slot_base_eq. split.
    + intros Ha. set (o := a - (64 + 27648 * s)).
      pose proof (Z.div_mod o 1152 ltac:(lia)).
      pose proof (Z.mod_pos_bound o 1152 ltac:(lia)).
      pose proof (Z.div_mod (o mod 1152) 8 ltac:(lia)).
      pose proof (Z.mod_pos_bound (o mod 1152) 8 ltac:(lia)).
      exists (o / 1152), (o mod 1152 / 8), ((o mod 1152) mod 8).
      rewrite row_byte_eq. unfold o in *. lia.
    + intros [x [r [b [Hx [Hr [Hb ->]]]]]]. rewrite row_byte_eq. lia.
  - intros s x r b x' r' b' Hr Hb Hr' Hb'. rewrite !row_byte_eq. lia.
Qed.

(** ** The rest of the program on the reference run *)

Ltac in_range := vm_compute; split; [discriminate | reflexivity].

Lemma create_map_cells_witness :
  create_map (fun _ => 7) (32 * (data.flag_offset_y + 3 - 1) + (data.flag_offset_x + 5))
  = (data.flag_height_tiles + 2) * 5 + 3 + 1.
Proof.
  refine (proj1 (create_map_cells (fun _ => 7) 5 3 _ _)); in_range.
Defined.

Lemma create_map_names_slot_0_witness :
  tile_ptr_add tiles_base_ptr
    (2 * create_map (fun _ => 7)
           (32 * (data.flag_offset_y + 3 - 1) + (data.flag_offset_x + 5)))
  = tile_ptr_add (column_base 0 5) (2 * 3).
Proof.
  refine (proj1 (create_map_names_slot_0 (fun _ => 7)) 5 3 _ _); in_range.
Defined.

Lemma _transfer_stores_inside_strips_witness :
  tiles_vram (_bg (_transfer Ref.lut_sin Ref.round_integer (Ref.after 3))) 10
  = tiles_vram (_bg (Ref.after 3)) 10.
Proof.
  refine (_transfer_stores_inside_strips Ref.lut_sin Ref.round_integer
            (Ref.after 3) 10 _ _ _).
  - vm_compute; reflexivity.
  - exact ref_rounds_to_nearest.
  - intros x r b Hx Hr Hb. rewrite row_byte_eq.
    change (src_slot (_current_frame (Ref.after 3))) with 1.
    change data.flag_width_tiles with 24 in Hx. lia.
Defined.

Lemma set_bg_item_last_wins_witness :
  tiles_vram (_bg (set_bg_item Ref.lut_sin Ref.round_integer Ref.flag_b
                     (set_bg_item Ref.lut_sin Ref.round_integer Ref.flag_a
                                  (Ref.after 3)))) 30000
  = tiles_vram (_bg (set_bg_item Ref.lut_sin Ref.round_integer Ref.flag_b
                                 (Ref.after 3))) 30000.
Proof.
  refine (proj1 (set_bg_item_last_wins Ref.lut_sin Ref.round_integer
                   (Ref.after 3) Ref.flag_a Ref.flag_b 30000 _ _)).
  - vm_compute; reflexivity.
  - exact ref_rounds_to_nearest.
Defined.

Lemma update_column_reads_and_stores_witness :
  update_column Ref.lut_sin Ref.round_integer 2 0 Ref.stale_vram 27704
  = Ref.stale_vram (column_base (src_slot 2) 0
                    + (27704 - update_line Ref.lut_sin Ref.round_integer 2 0)).
Proof.
  refine (proj1 (update_column_reads_and_stores Ref.lut_sin Ref.round_integer
                   2 0 27704 Ref.stale_vram _ _ _ _ _)).
  - vm_compute; reflexivity.
  - vm_compute; reflexivity.
  - exact ref_rounds_to_nearest.
  - in_range.
  - in_range.
Defined.

Lemma run_keeps_image_in_place_witness :
  image_in_place Ref.lut_sin Ref.round_integer RefRun.stale_run.
Proof.
  refine (run_keeps_image_in_place Ref.lut_sin Ref.round_integer Ref.flag_a
            Ref.stale_vram RefRun.some_calls _ _ _).
  - vm_compute; reflexivity.
  - vm_compute; reflexivity.
  - exact ref_rounds_to_nearest.
Defined.

Lemma run_keeps_tiles_clean_witness :
  clean_state Ref.lut_sin Ref.round_integer RefRun.blank_run.
Proof.
  refine (run_keeps_tiles_clean Ref.lut_sin Ref.round_integer Ref.flag_a
            RefRun.blank_vram RefRun.some_calls _ _ _ _).
  - vm_compute; reflexivity.
  - vm_compute; reflexivity.
  - exact ref_rounds_to_nearest.
  - intros a _. reflexivity.
Defined.

Lemma update_after_blank_start_witness :
  source_slot_untouched
    (tiles_vram (_bg RefRun.blank_run))
    (tiles_vram (_bg (update Ref.lut_sin Ref.round_integer RefRun.blank_run)))
    (_current_frame RefRun.blank_run).
Proof.
  refine (proj1 (update_after_blank_start Ref.lut_sin Ref.round_integer Ref.flag_a
                   RefRun.blank_vram RefRun.some_calls _ _ _ _)).
  - vm_compute; reflexivity.
  - vm_compute; reflexivity.
  - exact ref_rounds_to_nearest.
  - intros a _. reflexivity.
Defined.

Lemma main_counts_and_toggles_witness :
  _current_frame RefRun.main_run = 7
  /\ bg_item RefRun.main_run = Ref.flag_b.
Proof.
  pose proof (main_counts_and_toggles Ref.lut_sin Ref.round_integer
                RefRun.item_eqb Ref.flag_a Ref.flag_b Ref.stale_vram RefRun.some_keys
                ltac:(vm_compute; reflexivity) ltac:(vm_compute; reflexivity)
                ltac:(vm_compute; discriminate)) as [_ [F [I _]]].
  split; [exact F | exact I].
Defined.

Lemma main_keeps_image_in_place_witness :
  image_in_place Ref.lut_sin Ref.round_integer RefRun.main_run.
Proof.
  refine (proj1 (main_keeps_image_in_place Ref.lut_sin Ref.round_integer
                   RefRun.item_eqb Ref.flag_a Ref.flag_b Ref.stale_vram
                   RefRun.some_keys _ _ _)).
  - vm_compute; reflexivity.
  - vm_compute; reflexivity.
  - exact ref_rounds_to_nearest.
Defined.

Lemma update_holds_two_frames_witness :
  strip_loaded Ref.lut_sin Ref.round_integer
    (tiles_vram (_bg (update Ref.lut_sin Ref.round_integer RefRun.stale_run)))
    (src_slot (_current_frame RefRun.stale_run)) (_current_frame RefRun.stale_run)
    (_bg_item RefRun.stale_run) 7.
Proof.
  refine (proj1 (update_holds_two_frames Ref.lut_sin Ref.round_integer Ref.flag_a
                   Ref.stale_vram RefRun.some_calls 7 _ _ _ _)).
  - vm_compute; reflexivity.
  - vm_compute; reflexivity.
  - exact ref_rounds_to_nearest.
  - in_range.
Defined.

Lemma update_128_times_returns_witness :
  src_slot (_current_frame (run Ref.lut_sin Ref.round_integer RefRun.stale_run
                                (repeat CallUpdate 128)))
  = src_slot (_current_frame RefRun.stale_run).
Proof.
  refine (proj1 (update_128_times_returns Ref.lut_sin Ref.round_integer Ref.flag_a
                   Ref.stale_vram RefRun.some_calls 7 100 _ _ _ _ _)).
  - vm_compute; reflexivity.
  - vm_compute; reflexivity.
  - exact ref_rounds_to_nearest.
  - in_range.
  - in_range.
Defined.

Lemma update_stores_past_allocation_witness :
  written Ref.lut_sin Ref.round_integer 98 23 (allocated_bytes + 0).
Proof.
  refine (proj1 (update_stores_past_allocation Ref.lut_sin Ref.round_integer
                   98 0 Ref.stale_vram _ _ _ _ _ _)).
  - vm_compute; reflexivity.
  - vm_compute; reflexivity.
  - exact ref_rounds_to_nearest.
  - vm_compute; reflexivity.
  - vm_compute; reflexivity.
  - in_range.
Defined.

Lemma allocation_layout_witness :
  exists x r b, 0 <= x < data.flag_width_tiles /\ 0 <= r < rows_per_strip
                /\ 0 <= b < sizeof_uint64 /\ 30000 = row_byte 1 x r b.
Proof.
  refine (proj1 (proj1 (proj2 (proj2 (proj2 (proj2 (allocation_layout 30000))))) 1) _).
  in_range.
Defined.

(** ** Where the program does less than the design document says

    The copy of a column is as long as a whole strip and starts one row off
    the strip whenever the column moves, so one of its rows is stored
    outside the strip; [update] leaves no room for it. *)

(** C1. The update of frame 10 of the reference run, on tiles that were not
    blank at creation.  Column 0 does not move and column 1 moves up by one
    row, so the copy of column 1 begins in the last row of the strip of
    column 0 in the destination slot, slot 1.  After the update that row
    holds the first row of column 1 of the source slot (228) and not the last
    row of column 0 of the source slot (220), which is what a strip moved by
    0 rows would hold there. *)
Theorem update_spills_into_neighbour_strip :
  _current_frame (Ref.after 10) = 10
  /\ src_slot 10 = 0 /\ dst_slot 10 = 1
  /\ d_disp Ref.lut_sin Ref.round_integer 10 0 = 0
  /\ d_disp Ref.lut_sin Ref.round_integer 10 1 = - 1
  /\ written Ref.lut_sin Ref.round_integer 10 1 (row_byte 1 0 143 0)
  /\ tiles_vram (_bg (Ref.after 10)) (row_byte 0 0 143 0) = 220
  /\ tiles_vram (_bg (Ref.after 10)) (row_byte 0 1 0 0) = 228
  /\ tiles_vram (_bg (update Ref.lut_sin Ref.round_integer (Ref.after 10)))
                (row_byte 1 0 (143 + d_disp Ref.lut_sin Ref.round_integer 10 0) 0)
     = 228.
Proof.
  vm_compute. repeat split; discriminate.
Qed.

(** C4. The update of frame 2 of the reference run.  Slot 0 is the source
    slot; column 0 moves up by one row, so its copy begins at byte 27704, in
    the last row of slot 0: [update] stores into the slot it reads from, and
    on tiles that were not blank at creation the byte there changes from 94
    to 64.  In the same way the copy of column 0 begins in tile 0 at frame 7
    and the copy of column 23 ends after the allocated tiles at frame 98. *)
Theorem update_stores_into_source_slot :
  _current_frame (Ref.after 2) = 2
  /\ src_slot 2 = 0
  /\ in_slot (src_slot 2) 27704
  /\ d_disp Ref.lut_sin Ref.round_integer 2 0 = - 1
  /\ written Ref.lut_sin Ref.round_integer 2 0 27704
  /\ tiles_vram (_bg (Ref.after 2)) 27704 = 94
  /\ tiles_vram (_bg (update Ref.lut_sin Ref.round_integer (Ref.after 2))) 27704 = 64
  /\ (dst_slot 7 = 0 /\ written Ref.lut_sin Ref.round_integer 7 0 56
      /\ 56 < slot_base 0)
  /\ (dst_slot 98 = 1 /\ written Ref.lut_sin Ref.round_integer 98 23 55367
      /\ allocated_bytes <= 55367).
Proof.
  vm_compute. repeat split; discriminate.
Qed.
